(** * Token lifecycle of the remote MCP server: src/utils/auth_middleware.py

    A shallow embedding of [TokenManager], [HTTPAuthMiddleware] and
    [MCPAuthDependency], and of the exchanger call site of http_server.py.
    Python dictionaries are [gmap]s, dynamically typed values are [json]
    values, exceptions are an explicit [outcome], and the two effects of the
    module (reading the wall clock and posting an HTTP request) go through an
    environment that answers the n-th clock read and the n-th request. *)

From Stdlib Require Import ZArith Lia Ascii.
From stdpp Require Import gmap strings list fin_maps.

Local Open Scope string_scope.
Local Open Scope Z_scope.

(** ** Values *)

(** What [response.json()] and [jwt.decode] produce, and what the caches
    hold.  Numbers are the integer-valued ones. *)
#[local] Set Warnings "-register-all".
Inductive json : Type :=
| JNull
| JBool (b : bool)
| JNum (n : Z)
| JStr (s : string)
| JArr (l : list json)
| JObj (m : gmap string json).

(** Python truthiness, as used by [if expires_at and ...] and
    [if location_id:]. *)
Definition truthy (v : json) : bool :=
  match v with
  | JNull => false
  | JBool b => b
  | JNum n => negb (n =? 0)
  | JStr s => negb (bool_decide (s = ""))
  | JArr l => negb (bool_decide (l = []))
  | JObj m => negb (bool_decide (m = ∅))
  end.

Definition is_str (v : json) : bool :=
  match v with JStr _ => true | _ => false end.

(** [d.get(k)]: [None] (here [JNull]) when the key is missing. *)
Definition dict_get (d : gmap string json) (k : string) : json :=
  default JNull (d !! k).

(** [d.get(k, dflt)]. *)
Definition dict_get_default (d : gmap string json) (k : string) (dflt : json) : json :=
  default dflt (d !! k).

(** ** Exceptions *)

Inductive exn : Type :=
| HTTPException (status_code : Z) (detail : string)   (* fastapi.HTTPException *)
| RequestError (message : string)                     (* httpx.RequestError and its subclasses *)
| OtherError (class_name : string) (message : string) (* any other subclass of Exception *).

Inductive outcome (A : Type) : Type :=
| Return (a : A)
| Raise (e : exn).
Arguments Return {A} a.
Arguments Raise {A} e.

Definition isinstance_HTTPException (e : exn) : bool :=
  match e with HTTPException _ _ => true | _ => false end.

Definition isinstance_RequestError (e : exn) : bool :=
  match e with RequestError _ => true | _ => false end.

(** ** Time *)

(** A [datetime] is a number of microseconds since the epoch, together with
    whether it carries a time zone: [datetime.now(UTC)] is aware, and Python
    refuses to order an aware against a naive value. *)
Inductive datetime : Type :=
| AwareDT (us : Z)
| NaiveDT (us : Z).

Definition timedelta (minutes : Z) : Z := minutes * 60 * 1000000.

Definition datetime_add (d : datetime) (delta : Z) : datetime :=
  match d with
  | AwareDT us => AwareDT (us + delta)
  | NaiveDT us => NaiveDT (us + delta)
  end.

(** [a > b] on datetimes. *)
Definition datetime_gt (a b : datetime) : outcome bool :=
  match a, b with
  | AwareDT x, AwareDT y => Return (y <? x)
  | NaiveDT x, NaiveDT y => Return (y <? x)
  | _, _ => Raise (OtherError "TypeError" "can't compare offset-naive and offset-aware datetimes")
  end.

(** ** HTTP *)

Record http_request : Type := {
  url : string;
  authorization : string;
  content_type : string;
  json_payload : option json
}.

Record http_response : Type := {
  status_code : Z;
  text : string;
  response_json : outcome json   (* [response.json()], which raises on a body that is not JSON *)
}.

Inductive http_result : Type :=
| Responds (r : http_response)
| PostRaises (e : exn).

(** The inbound side, from fastapi. *)
Record HTTPAuthorizationCredentials : Type := {
  scheme : string;
  credentials : string
}.

(** A request, as far as the module looks at it: its headers, and the
    attributes set on [request.state]. *)
Record Request : Type := {
  headers : gmap string string;
  state : gmap string json
}.

(** ** The libraries the module calls *)

(** [datetime.isoformat], [datetime.fromisoformat] ([None]: ValueError),
    [jwt.decode(token, options={"verify_signature": False})] and fastapi's
    [HTTPBearer.__call__]. *)
Class Libraries : Type := {
  isoformat : datetime → string;
  fromisoformat : string → option datetime;
  jwt_decode : string → outcome (gmap string json);
  security : Request → outcome (option HTTPAuthorizationCredentials)
}.

(** What the module relies on: a stamp written by [isoformat] is a non-empty
    string that [fromisoformat] reads back. *)
Class LibrariesOk `{Libraries} : Prop := {
  fromisoformat_isoformat : ∀ d, fromisoformat (isoformat d) = Some d;
  isoformat_nonempty : ∀ d, isoformat d ≠ ""
}.

(** ** State *)

Record TokenManager : Type := {
  _token_cache : gmap string (gmap string json);
  _location_token_cache : gmap string (gmap string json);
  supabase_url : string
}.

(** [TokenManager.__init__], with the value of [os.getenv("SUPABASE_URL")]. *)
Definition TokenManager_init (env_url : option string) : TokenManager :=
  {| _token_cache := ∅;
     _location_token_cache := ∅;
     supabase_url := default "https://egigkzfowimxfavnjvpe.supabase.co" env_url |}.

(** [self._token_cache[token] = data] *)
Definition store_validation (token : string) (data : gmap string json)
    (self : TokenManager) : TokenManager :=
  {| _token_cache := <[token := data]> (_token_cache self);
     _location_token_cache := _location_token_cache self;
     supabase_url := supabase_url self |}.

(** [self._location_token_cache[cache_key] = entry] *)
Definition store_location_token (cache_key : string) (entry : gmap string json)
    (self : TokenManager) : TokenManager :=
  {| _token_cache := _token_cache self;
     _location_token_cache := <[cache_key := entry]> (_location_token_cache self);
     supabase_url := supabase_url self |}.

(** The manager, how often the clock was read, and the requests posted so
    far, oldest first.  The module builds three managers ([token_manager],
    and the ones inside [auth_middleware] and [mcp_auth]); a world follows one
    of them. *)
Record World : Type := {
  manager : TokenManager;
  clock_reads : nat;
  calls : list http_request
}.

(** The outside: the time shown at the n-th clock read, and the answer to the
    n-th request. *)
Record Env : Type := {
  time_at : nat → Z;
  respond : nat → http_request → http_result
}.

(** ** The monad of the module's coroutines *)

Definition M (A : Type) : Type := Env → World → outcome A * World.

Definition ret {A} (a : A) : M A := λ _ w, (Return a, w).

Definition bind {A B} (m : M A) (k : A → M B) : M B :=
  λ env w,
    match m env w with
    | (Return a, w') => k a env w'
    | (Raise e, w') => (Raise e, w')
    end.

Definition raise {A} (e : exn) : M A := λ _ w, (Raise e, w).

Definition lift_outcome {A} (o : outcome A) : M A := λ _ w, (o, w).

(** [try: body / except <class>: handler]; [handler e = None] when [e] is not
    an instance of a class the statement names. *)
Definition try_except {A} (body : M A) (handler : exn → option (M A)) : M A :=
  λ env w,
    match body env w with
    | (Return a, w') => (Return a, w')
    | (Raise e, w') =>
        match handler e with
        | Some h => h env w'
        | None => (Raise e, w')
        end
    end.

#[global] Instance M_ret : MRet M := @ret.
#[global] Instance M_bind : MBind M := λ A B k m, bind m k.

(** The three ways the module changes the world. *)
Definition with_manager (tm : TokenManager) (w : World) : World :=
  {| manager := tm; clock_reads := clock_reads w; calls := calls w |}.

Definition tick (w : World) : World :=
  {| manager := manager w; clock_reads := S (clock_reads w); calls := calls w |}.

Definition sent (req : http_request) (w : World) : World :=
  {| manager := manager w; clock_reads := clock_reads w; calls := calls w ++ [req] |}.

Definition get_self : M TokenManager := λ _ w, (Return (manager w), w).

Definition set_self (tm : TokenManager) : M unit :=
  λ _ w, (Return tt, with_manager tm w).

(** [datetime.now(UTC)] *)
Definition datetime_now : M datetime :=
  λ env w, (Return (AwareDT (time_at env (clock_reads w))), tick w).

(** [await client.post(...)] *)
Definition client_post (req : http_request) : M http_response :=
  λ env w,
    match respond env (length (calls w)) req with
    | Responds r => (Return r, sent req w)
    | PostRaises e => (Raise e, sent req w)
    end.

Section TokenLifecycle.

Context {libs : Libraries}.

(** [datetime.fromisoformat(v)] on a value taken out of a dictionary. *)
Definition datetime_fromisoformat (v : json) : outcome datetime :=
  match v with
  | JStr s =>
      match fromisoformat s with
      | Some d => Return d
      | None => Raise (OtherError "ValueError" ("Invalid isoformat string: " +:+ s))
      end
  | _ => Raise (OtherError "TypeError" "fromisoformat: argument must be str")
  end.

(** [expires_at and datetime.fromisoformat(expires_at) > datetime.now(UTC)]:
    the clock is read only when the stamp is truthy and parses. *)
Definition unexpired (expires_at : json) : M bool :=
  if truthy expires_at then
    exp ← lift_outcome (datetime_fromisoformat expires_at);
    now ← datetime_now;
    lift_outcome (datetime_gt exp now)
  else mret false.

Definition validate_request (base : string) (token : string) : http_request :=
  {| url := base +:+ "/functions/v1/oauth-test";
     authorization := "Bearer " +:+ token;
     content_type := "application/json";
     json_payload := None |}.

(** [data["expires_at"] = v] on what [response.json()] returned. *)
Definition setitem (data : json) (k : string) (v : json) : outcome (gmap string json) :=
  match data with
  | JObj m => Return (<[k := v]> m)
  | JArr _ => Raise (OtherError "TypeError" "list indices must be integers or slices, not str")
  | _ => Raise (OtherError "TypeError" "object does not support item assignment")
  end.

(** [validate_bearer_token], lines 32-37: "Check cache first". *)
Definition check_token_cache (token : string) : M (option (gmap string json)) :=
  self ← get_self;
  match _token_cache self !! token with
  | Some cached =>
      let expires_at := dict_get cached "expires_at" in
      fresh ← unexpired expires_at;
      mret (if fresh : bool then Some cached else None)
  | None => mret None
  end.

(** [validate_bearer_token], lines 40-63: "Validate via Supabase". *)
Definition validate_via_supabase (token : string) : M (gmap string json) :=
  self ← get_self;
  try_except
    (response ← client_post (validate_request (supabase_url self) token);
     if status_code response =? 200 then
       data ← lift_outcome (response_json response);
       now ← datetime_now;
       data ← lift_outcome
         (setitem data "expires_at" (JStr (isoformat (datetime_add now (timedelta 5)))));
       self ← get_self;
       set_self (store_validation token data self);;
       mret data
     else
       raise (HTTPException 401 ("Token validation failed: " +:+ text response)))
    (λ e, if isinstance_RequestError e
          then Some (raise (HTTPException 503 "Authentication service unavailable"))
          else None).

(** [TokenManager.validate_bearer_token] *)
Definition validate_bearer_token (token : string) : M (gmap string json) :=
  hit ← check_token_cache token;
  match hit with
  | Some cached => mret cached
  | None => validate_via_supabase token
  end.

(** [TokenManager.get_location_from_token] *)
Definition get_location_from_token (token : string) : M json :=
  token_data ← validate_bearer_token token;
  try_except
    (claims ← lift_outcome (jwt_decode token);
     let company_id := dict_get claims "companyId" in
     let location_id := dict_get claims "locationId" in
     if truthy location_id then mret location_id
     else mret (JStr "test_location_id"))
    (λ e, Some (mret (JStr "test_location_id"))).

(** [f"{bearer_token}:{location_id}"] *)
Definition cache_key (bearer_token location_id : string) : string :=
  bearer_token +:+ ":" +:+ location_id.

Definition exchange_request (base : string) (bearer_token location_id : string)
  : http_request :=
  {| url := base +:+ "/functions/v1/get-token";
     authorization := "Bearer " +:+ bearer_token;
     content_type := "application/json";
     json_payload := Some (JObj {[ "location_id" := JStr location_id ]}) |}.

(** [cached["token"]] *)
Definition getitem (d : gmap string json) (k : string) : outcome json :=
  match d !! k with
  | Some v => Return v
  | None => Raise (OtherError "KeyError" k)
  end.

(** [data.get(k, dflt)] on what [response.json()] returned. *)
Definition json_get (data : json) (k : string) (dflt : json) : outcome json :=
  match data with
  | JObj m => Return (dict_get_default m k dflt)
  | _ => Raise (OtherError "AttributeError" "object has no attribute 'get'")
  end.

(** What line 125 stores under the cache key. *)
Definition location_entry (location_token : json) (expires : datetime) : gmap string json :=
  {[ "token" := location_token; "expires_at" := JStr (isoformat expires) ]}.

(** [get_location_token], lines 101-106: "Check cache". *)
Definition check_location_token_cache (bearer_token location_id : string) : M (option json) :=
  self ← get_self;
  let cache_key := cache_key bearer_token location_id in
  match _location_token_cache self !! cache_key with
  | Some cached =>
      let expires_at := dict_get cached "expires_at" in
      fresh ← unexpired expires_at;
      if fresh : bool then
        tok ← lift_outcome (getitem cached "token");
        mret (Some tok)
      else mret None
  | None => mret None
  end.

(** [get_location_token], lines 109-139: the call to the get-token
    endpoint. *)
Definition exchange_via_supabase (bearer_token location_id : string) : M json :=
  self ← get_self;
  let cache_key := cache_key bearer_token location_id in
  try_except
    (response ← client_post (exchange_request (supabase_url self) bearer_token location_id);
     if status_code response =? 200 then
       data ← lift_outcome (response_json response);
       location_token ← lift_outcome (json_get data "access_token" (JStr bearer_token));
       now ← datetime_now;
       self ← get_self;
       set_self
         (store_location_token cache_key
            (location_entry location_token (datetime_add now (timedelta 30))) self);;
       mret location_token
     else
       mret (JStr bearer_token))
    (λ e, Some (mret (JStr bearer_token))).

(** [TokenManager.get_location_token] *)
Definition get_location_token (bearer_token location_id : string) : M json :=
  hit ← check_location_token_cache bearer_token location_id;
  match hit with
  | Some tok => mret tok
  | None => exchange_via_supabase bearer_token location_id
  end.

(** ** The authentication step *)

(** [HTTPAuthMiddleware.__call__]; the state is its [self.token_manager]. *)
Definition HTTPAuthMiddleware_call (creds : option HTTPAuthorizationCredentials) : M json :=
  match creds with
  | None => raise (HTTPException 401 "Missing authorization header")
  | Some c =>
      let token := credentials c in
      try_except
        (validate_bearer_token token;;
         location_id ← get_location_from_token token;
         mret location_id)
        (λ e, if isinstance_HTTPException e
              then Some (raise e)
              else Some (raise (HTTPException 401 "Authentication failed")))
  end.

(** [MCPAuthDependency.__call__]; the state is its
    [self.auth.token_manager].  The request is returned with the two
    attributes the call sets on [request.state]. *)
Definition MCPAuthDependency_call (request : Request)
    (creds : option HTTPAuthorizationCredentials) : M ((json * string) * Request) :=
  creds ← match creds with
          | Some c => mret (Some c)
          | None => lift_outcome (security request)
          end;
  match creds with
  | None => raise (HTTPException 401 "Missing authorization")
  | Some c =>
      let token := credentials c in
      location_id ← HTTPAuthMiddleware_call (Some c);
      let request :=
        {| headers := headers request;
           state := <["location_id" := location_id]>
                      (<["bearer_token" := JStr token]> (state request)) |} in
      mret ((location_id, token), request)
  end.

(** ** The exchanger's call site, http_server.py *)

(** [RemoteOAuthService], the wrapper [get_ghl_client] hands to the CRM
    client. *)
Record RemoteOAuthService : Type := {
  token : string;
  location_id : string
}.

(** [RemoteOAuthService.get_location_token]; the state is the module-level
    [token_manager]. *)
Definition RemoteOAuthService_get_location_token (self : RemoteOAuthService)
    (loc_id : string) : M json :=
  get_location_token (token self) loc_id.

(** ** Notions used in the statements *)

(** Every cached validation carries a stamp written by line 53.  Line 54 is
    the only write to the cache, so the caches of a running process are of
    this form. *)
Definition token_cache_wf (self : TokenManager) : Prop :=
  ∀ T d, _token_cache self !! T = Some d →
         ∃ t, d !! "expires_at" = Some (JStr (isoformat (AwareDT t))).

(** The identity endpoint accepts a request: whenever it is posted, the
    answer is 200 with a JSON object. *)
Definition accepts (env : Env) (req : http_request) : Prop :=
  ∀ n, ∃ r B, respond env n req = Responds r
              ∧ status_code r = 200 ∧ response_json r = Return (JObj B).

(** From [w] to [w1] nothing happened but validations of [T]: the scoped-token
    cache and the base URL are the same, and the requests posted in between
    all went to the validation endpoint. *)
Definition only_validates (T : string) (w w1 : World) : Prop :=
  supabase_url (manager w1) = supabase_url (manager w)
  ∧ _location_token_cache (manager w1) = _location_token_cache (manager w)
  ∧ ∃ new, calls w1 = (calls w ++ new)%list
           ∧ Forall (λ q, q = validate_request (supabase_url (manager w)) T) new.

(** The credentials a call of [MCPAuthDependency.__call__] works with: the
    ones passed in, or else the ones of the security scheme. *)
Definition effective_credentials (request : Request)
    (creds : option HTTPAuthorizationCredentials)
  : outcome (option HTTPAuthorizationCredentials) :=
  match creds with
  | Some c => Return (Some c)
  | None => security request
  end.

End TokenLifecycle.

(** Whether a string contains the separator of [cache_key]. *)
Fixpoint has_colon (s : string) : bool :=
  match s with
  | EmptyString => false
  | String c rest => Ascii.eqb c ":" || has_colon rest
  end.

(** ** Outcomes of the exchange

    The answers of the get-token endpoint on which the try block of
    [get_location_token] stores nothing: the post raises, the status is not
    200, [response.json()] raises, or its value has no [get]. *)
Inductive exchange_fails : http_result → Prop :=
| fails_post e :
    exchange_fails (PostRaises e)
| fails_status r :
    status_code r ≠ 200 → exchange_fails (Responds r)
| fails_json r e :
    status_code r = 200 → response_json r = Raise e → exchange_fails (Responds r)
| fails_not_object r v :
    status_code r = 200 → response_json r = Return v → (∀ B, v ≠ JObj B) →
    exchange_fails (Responds r).

(** ** A concrete outside

    One instance of the libraries and of the two endpoints, on which the
    statements below are run. *)
Module Scenario.

(** Stamps are written as a zone letter, a sign and the binary digits of the
    microsecond count, least significant first. *)
Fixpoint pos_digits (p : positive) : string :=
  match p with
  | xH => "1"
  | xO q => String "0"%char (pos_digits q)
  | xI q => String "1"%char (pos_digits q)
  end.

Fixpoint parse_pos (s : string) : option positive :=
  match s with
  | EmptyString => None
  | String c rest =>
      match rest with
      | EmptyString => if Ascii.eqb c "1" then Some xH else None
      | String _ _ =>
          match parse_pos rest with
          | Some q =>
              if Ascii.eqb c "0" then Some (xO q)
              else if Ascii.eqb c "1" then Some (xI q)
              else None
          | None => None
          end
      end
  end.

Definition Z_digits (z : Z) : string :=
  match z with
  | Z0 => "0"
  | Zpos p => String "+"%char (pos_digits p)
  | Zneg p => String "-"%char (pos_digits p)
  end.

Definition parse_Z (s : string) : option Z :=
  match s with
  | String c rest =>
      if Ascii.eqb c "0" then (match rest with EmptyString => Some Z0 | _ => None end)
      else if Ascii.eqb c "+" then Zpos <$> parse_pos rest
      else if Ascii.eqb c "-" then Zneg <$> parse_pos rest
      else None
  | EmptyString => None
  end.

Definition ref_isoformat (d : datetime) : string :=
  match d with
  | AwareDT us => String "A"%char (Z_digits us)
  | NaiveDT us => String "N"%char (Z_digits us)
  end.

Definition ref_fromisoformat (s : string) : option datetime :=
  match s with
  | String c rest =>
      if Ascii.eqb c "A" then AwareDT <$> parse_Z rest
      else if Ascii.eqb c "N" then NaiveDT <$> parse_Z rest
      else None
  | EmptyString => None
  end.

(** The tokens whose claims are known; anything else does not decode. *)
Definition ref_jwt_decode (token : string) : outcome (gmap string json) :=
  if String.eqb token "abc" then
    Return {[ "locationId" := JStr "loc_9"; "companyId" := JStr "comp123" ]}
  else if String.eqb token "no_location" then
    Return {[ "companyId" := JStr "comp123" ]}
  else if String.eqb token "empty_location" then
    Return {[ "locationId" := JStr "" ]}
  else if String.eqb token "numeric_location" then
    Return {[ "locationId" := JNum 42 ]}
  else Raise (OtherError "DecodeError" "Not enough segments").

(** The bearer scheme: the credentials are what follows "Bearer " in the
    Authorization header. *)
Fixpoint strip_prefix (prefix s : string) : option string :=
  match prefix with
  | EmptyString => Some s
  | String a prefix' =>
      match s with
      | String b s' => if Ascii.eqb a b then strip_prefix prefix' s' else None
      | EmptyString => None
      end
  end.

Definition ref_security (request : Request) : outcome (option HTTPAuthorizationCredentials) :=
  match headers request !! "authorization" with
  | Some h =>
      match strip_prefix "Bearer " h with
      | Some c => Return (Some {| scheme := "Bearer"; credentials := c |})
      | None => Raise (HTTPException 403 "Invalid authentication credentials")
      end
  | None => Raise (HTTPException 403 "Not authenticated")
  end.

#[export] Instance libraries : Libraries :=
  {| isoformat := ref_isoformat;
     fromisoformat := ref_fromisoformat;
     jwt_decode := ref_jwt_decode;
     security := ref_security |}.

Definition base_url : string := "https://egigkzfowimxfavnjvpe.supabase.co".

Definition ok (body : gmap string json) : http_response :=
  {| status_code := 200; text := ""; response_json := Return (JObj body) |}.

Definition error (status : Z) (body : string) : http_response :=
  {| status_code := status; text := body;
     response_json := Raise (OtherError "JSONDecodeError" "Expecting value") |}.

Definition identity : gmap string json :=
  {[ "valid" := JBool true; "user_id" := JStr "user123" ]}.

(** The identity endpoint accepts the tokens it knows, is unreachable for
    "down" and broken for "teapot"; the exchange endpoint issues a scoped
    token to "abc" and to "a:b" and fails for everyone else. *)
Definition ref_respond (n : nat) (req : http_request) : http_result :=
  if String.eqb (url req) (base_url +:+ "/functions/v1/oauth-test") then
    if String.eqb (authorization req) "Bearer down" then
      PostRaises (RequestError "Network error")
    else if String.eqb (authorization req) "Bearer teapot" then
      Responds (error 500 "boom")
    else if String.eqb (authorization req) "Bearer invalid_token" then
      Responds (error 401 "Invalid token")
    else
      Responds (ok identity)
  else if String.eqb (authorization req) "Bearer abc" then
    Responds (ok {[ "access_token" := JStr "scoped_1" ]})
  else if String.eqb (authorization req) "Bearer a:b" then
    Responds (ok {[ "access_token" := JStr "scoped_for_c" ]})
  else Responds (error 500 "exchange failed").

(** One second passes between two readings of the clock. *)
Definition env : Env :=
  {| time_at := λ n, 1000000 * Z.of_nat n; respond := ref_respond |}.

(** A fresh process. *)
Definition start : World :=
  {| manager := TokenManager_init None; clock_reads := 0; calls := [] |}.

End Scenario.

(** ** More notions used in the statements *)

Section Invariants.

Context {libs : Libraries}.

(** Every cached scoped token is an entry as line 125 writes it, the only
    write to that cache. *)
Definition location_cache_wf (self : TokenManager) : Prop :=
  ∀ k entry, _location_token_cache self !! k = Some entry →
             ∃ tok t, entry = location_entry tok (AwareDT t).

End Invariants.

(** * http_server.py *)

(** What the server module takes from elsewhere: the CRM client class of
    src/api/client.py with its constructor; the Python objects the tools
    return (dictionaries from [model_dump()], which may hold dates and other
    objects) and [json.dumps(v, indent=2)] on them, which raises a TypeError
    on an object it cannot serialize; the text an f-string puts for a value;
    [str(e)] for an exception; and [urllib.parse.urlencode]. *)
Class ServerLibraries : Type := {
  Client : Type;
  GoHighLevelClient : RemoteOAuthService → Client;
  ToolResult : Type;
  json_dumps : ToolResult → outcome string;
  format_value : json → string;
  exception_str : exn → string;
  urlencode : list (string * string) → string
}.

(** A string formats as itself, and a ValueError shows its message. *)
Class ServerLibrariesOk `{ServerLibraries} : Prop := {
  format_value_str : ∀ s, format_value (JStr s) = s;
  exception_str_ValueError : ∀ m, exception_str (OtherError "ValueError" m) = m
}.

(** ** Dictionaries whose order shows

    [tool_registry.tools] is listed in insertion order; assigning to a key
    that is present keeps its place. *)
Fixpoint od_lookup {V} (k : string) (d : list (string * V)) : option V :=
  match d with
  | [] => None
  | (k', v) :: rest => if String.eqb k' k then Some v else od_lookup k rest
  end.

Fixpoint od_set {V} (k : string) (v : V) (d : list (string * V)) : list (string * V) :=
  match d with
  | [] => [(k, v)]
  | (k', v') :: rest =>
      if String.eqb k' k then (k', v) :: rest else (k', v') :: od_set k v rest
  end.

(** [s[:n]], the first [n] characters, for the ASCII strings tokens are. *)
Fixpoint str_take (n : nat) (s : string) : string :=
  match n, s with
  | S m, String c rest => String c (str_take m rest)
  | _, _ => EmptyString
  end.

Section Server.

Context {libs : Libraries} {server_libs : ServerLibraries}.

(** An entry of [MCPToolRegistry.tools].  The registered functions are the
    [*_impl] coroutines, which act through the client they are given and
    return a Python object. *)
Record Tool : Type := {
  func : Client → json → string → M ToolResult;
  description : string;
  params_schema : json
}.

(** The module-level state: the world of [token_manager], [ghl_clients] and
    [tool_registry.tools]. *)
Record Server : Type := {
  token_world : World;
  ghl_clients : gmap string Client;
  tools : list (string * Tool)
}.

Definition SM (A : Type) : Type := Env → Server → outcome A * Server.

Definition sm_ret {A} (a : A) : SM A := λ _ s, (Return a, s).

Definition sm_bind {A B} (m : SM A) (k : A → SM B) : SM B :=
  λ env s,
    match m env s with
    | (Return a, s') => k a env s'
    | (Raise e, s') => (Raise e, s')
    end.

Definition sm_raise {A} (e : exn) : SM A := λ _ s, (Raise e, s).

Definition sm_outcome {A} (o : outcome A) : SM A := λ _ s, (o, s).

(** [try: body / except Exception as e: handler e] *)
Definition sm_try {A} (body : SM A) (handler : exn → SM A) : SM A :=
  λ env s,
    match body env s with
    | (Return a, s') => (Return a, s')
    | (Raise e, s') => handler e env s'
    end.

#[global] Instance SM_ret : MRet SM := @sm_ret.
#[global] Instance SM_bind : MBind SM := λ A B k m, sm_bind m k.

(** A coroutine of the token manager's world, awaited from the server. *)
Definition in_world {A} (m : M A) : SM A :=
  λ env s,
    let '(r, w) := m env (token_world s) in
    (r, {| token_world := w; ghl_clients := ghl_clients s; tools := tools s |}).

Definition get_server : SM Server := λ _ s, (Return s, s).

Definition set_ghl_clients (clients : gmap string Client) : SM unit :=
  λ _ s, (Return tt, {| token_world := token_world s; ghl_clients := clients;
                        tools := tools s |}).

Definition set_tools (ts : list (string * Tool)) : SM unit :=
  λ _ s, (Return tt, {| token_world := token_world s; ghl_clients := ghl_clients s;
                        tools := ts |}).

(** [f"{location_id}:{token[:10]}"] *)
Definition client_cache_key (location_id token : string) : string :=
  location_id +:+ ":" +:+ str_take 10 token.

(** [get_ghl_client] *)
Definition get_ghl_client (location_id token : string) : SM Client :=
  let cache_key := client_cache_key location_id token in
  s ← get_server;
  match ghl_clients s !! cache_key with
  | None =>
      let remote_oauth := {| token := token; location_id := location_id |} in
      set_ghl_clients (<[cache_key := GoHighLevelClient remote_oauth]> (ghl_clients s))
  | Some _ => mret tt
  end;;
  s ← get_server;
  match ghl_clients s !! cache_key with
  | Some client => mret client
  | None => sm_raise (OtherError "KeyError" cache_key)
  end.

(** [MCPToolRegistry.register] *)
Definition register (name : string) (f : Client → json → string → M ToolResult)
    (description : string) (params_schema : json) : SM unit :=
  s ← get_server;
  set_tools (od_set name
               {| func := f; description := description; params_schema := params_schema |}
               (tools s)).

(** [MCPToolRegistry.call_tool] *)
Definition call_tool (name : string) (params : json) (location_id token : string)
  : SM ToolResult :=
  s ← get_server;
  match od_lookup name (tools s) with
  | None => sm_raise (OtherError "ValueError" ("Tool " +:+ name +:+ " not found"))
  | Some tool =>
      client ← get_ghl_client location_id token;
      in_world (func tool client params location_id)
  end.

(** [MCPProtocolHandler.handle_initialize] *)
Definition handle_initialize (params : json) : SM (gmap string json) :=
  mret {[ "protocolVersion" := JStr "0.1.0";
          "serverInfo" := JObj {[ "name" := JStr "GoHighLevel MCP Server";
                                  "version" := JStr "1.0.0" ]};
          "capabilities" :=
            JObj {[ "tools" := JObj {[ "listTools" := JObj ∅; "callTool" := JObj ∅ ]} ]} ]}.

(** The entry [handle_tools_list] appends for one tool. *)
Definition tool_listing (entry : string * Tool) : json :=
  JObj {[ "name" := JStr entry.1;
          "description" := JStr (description entry.2);
          "inputSchema" := params_schema entry.2 ]}.

(** [MCPProtocolHandler.handle_tools_list] *)
Definition handle_tools_list (params : json) : SM (gmap string json) :=
  s ← get_server;
  mret {[ "tools" := JArr (tool_listing <$> tools s) ]}.

(** [params.get(k, dflt)] on the "params" of a message, which need not be a
    dictionary. *)
Definition params_get (params : json) (k : string) (dflt : json) : outcome json :=
  match params with
  | JObj m => Return (dict_get_default m k dflt)
  | _ => Raise (OtherError "AttributeError" "object has no attribute 'get'")
  end.

(** [tool_name not in tool_registry.tools], for the value found under
    "name": the registry has string keys only, and a list or a dictionary
    cannot be looked up at all. *)
Definition registered (tool_name : json) (ts : list (string * Tool))
  : outcome (option string) :=
  match tool_name with
  | JStr name =>
      Return match od_lookup name ts with Some _ => Some name | None => None end
  | JArr _ => Raise (OtherError "TypeError" "unhashable type: 'list'")
  | JObj _ => Raise (OtherError "TypeError" "unhashable type: 'dict'")
  | _ => Return None
  end.

(** [MCPProtocolHandler.handle_tools_call] *)
Definition handle_tools_call (params : json) (location_id token : string)
  : SM (gmap string json) :=
  tool_name ← sm_outcome (params_get params "name" JNull);
  tool_args ← sm_outcome (params_get params "arguments" (JObj ∅));
  s ← get_server;
  found ← sm_outcome (registered tool_name (tools s));
  match found with
  | None =>
      sm_raise (OtherError "ValueError" ("Tool " +:+ format_value tool_name +:+ " not found"))
  | Some name =>
      sm_try
        (result ← call_tool name tool_args location_id token;
         dumped ← sm_outcome (json_dumps result);
         mret {[ "content" :=
                   JArr [JObj {[ "type" := JStr "text";
                                 "text" := JStr dumped ]}] ]})
        (λ e, mret {[ "error" := JObj {[ "code" := JStr "TOOL_ERROR";
                                         "message" := JStr (exception_str e) ]} ]})
  end.

(** [method == s] *)
Definition is_method (method : json) (s : string) : bool :=
  match method with
  | JStr m => String.eqb m s
  | _ => false
  end.

(** [process_message], the routing inside its try block. *)
Definition route (method params : json) (location_id token : string)
  : SM (gmap string json) :=
  if is_method method "initialize" then handle_initialize params
  else if is_method method "tools/list" then handle_tools_list params
  else if is_method method "tools/call" then handle_tools_call params location_id token
  else sm_raise (OtherError "ValueError" ("Unknown method: " +:+ format_value method)).

(** [MCPProtocolHandler.process_message] *)
Definition process_message (message : gmap string json) (location_id token : string)
  : SM (gmap string json) :=
  let method := dict_get message "method" in
  let params := dict_get_default message "params" (JObj ∅) in
  let msg_id := dict_get message "id" in
  sm_try
    (result ← route method params location_id token;
     mret {[ "jsonrpc" := JStr "2.0"; "id" := msg_id; "result" := JObj result ]})
    (λ e, mret {[ "jsonrpc" := JStr "2.0"; "id" := msg_id;
                  "error" := JObj {[ "code" := JNum (-32603);
                                     "message" := JStr (exception_str e) ]} ]}).

(** ** The authorization redirect *)

(** [JSONResponse(content, status_code=..., headers=...)] *)
Record JSONResponse : Type := {
  content : json;
  response_status : Z;
  response_headers : list (string * string)
}.

(** [x or dflt] for an optional string. *)
Definition str_or (x : option string) (dflt : string) : string :=
  match x with
  | Some s => if bool_decide (s = "") then dflt else s
  | None => dflt
  end.

(** The query parameters [oauth_authorize] builds, in the order it sets
    them. *)
Definition oauth_authorize_params (client_id redirect_uri response_type state : string)
    (scope code_challenge code_challenge_method : option string)
  : list (string * string) :=
  let params :=
    [("client_id", client_id); ("redirect_uri", redirect_uri);
     ("response_type", response_type); ("state", state);
     ("scope", str_or scope "ghl.full")] in
  match code_challenge with
  | Some challenge =>
      if bool_decide (challenge = "") then params
      else od_set "code_challenge_method" (str_or code_challenge_method "S256")
             (od_set "code_challenge" challenge params)
  | None => params
  end.

(** [oauth_authorize] *)
Definition oauth_authorize (client_id redirect_uri response_type state : string)
    (scope code_challenge code_challenge_method : option string) : JSONResponse :=
  let basic_machines_url := "https://basicmachines.co/oauth/gohighlevel" in
  let params := oauth_authorize_params client_id redirect_uri response_type state
                  scope code_challenge code_challenge_method in
  let redirect_url := basic_machines_url +:+ "?" +:+ urlencode params in
  {| content := JObj {[ "redirect" := JStr redirect_url ]};
     response_status := 302;
     response_headers := [("Location", redirect_url)] |}.

End Server.

(** ** A concrete server *)
Module ServerScenario.

Definition ref_format_value (v : json) : string :=
  match v with
  | JStr s => s
  | JNull => "None"
  | JBool true => "True"
  | JBool false => "False"
  | _ => "<value>"
  end.

(** What a tool hands back: a JSON value, or a dictionary that still holds
    a date. *)
Inductive py_result : Type :=
| Plain (v : json)
| WithDatetime (v : json).

Definition ref_json_dumps (r : py_result) : outcome string :=
  match r with
  | Plain (JStr s) => Return ("'" +:+ s +:+ "'")
  | Plain JNull => Return "null"
  | Plain _ => Return "<json>"
  | WithDatetime _ =>
      Raise (OtherError "TypeError" "Object of type datetime is not JSON serializable")
  end.

Definition ref_exception_str (e : exn) : string :=
  match e with
  | HTTPException _ detail => detail
  | RequestError m => m
  | OtherError _ m => m
  end.

Fixpoint ref_urlencode (params : list (string * string)) : string :=
  match params with
  | [] => ""
  | [(k, v)] => k +:+ "=" +:+ v
  | (k, v) :: rest => k +:+ "=" +:+ v +:+ "&" +:+ ref_urlencode rest
  end.

(** The client is represented by the service it was built around. *)
#[export] Instance server_libraries : ServerLibraries :=
  {| Client := RemoteOAuthService;
     GoHighLevelClient := λ svc, svc;
     ToolResult := py_result;
     json_dumps := ref_json_dumps;
     format_value := ref_format_value;
     exception_str := ref_exception_str;
     urlencode := ref_urlencode |}.

Import Scenario.

(** A tool that asks its client for the scoped token of the location, one
    that fails, and one whose result holds a date. *)
Definition whoami_impl (client : RemoteOAuthService) (params : json) (loc : string)
  : M py_result :=
  scoped ← RemoteOAuthService_get_location_token client loc;
  mret (Plain scoped).

Definition broken_impl (client : RemoteOAuthService) (params : json) (loc : string)
  : M py_result :=
  raise (OtherError "RuntimeError" "upstream failed").

Definition slots_impl (client : RemoteOAuthService) (params : json) (loc : string)
  : M py_result :=
  mret (WithDatetime (JObj {[ "slots" := JArr [] ]})).

Definition whoami : Tool :=
  {| func := whoami_impl; description := "Scoped token of the location";
     params_schema := JObj {[ "type" := JStr "object" ]} |}.

Definition broken : Tool :=
  {| func := broken_impl; description := "Always fails";
     params_schema := JObj {[ "type" := JStr "object" ]} |}.

Definition slots : Tool :=
  {| func := slots_impl; description := "Free slots of a calendar";
     params_schema := JObj {[ "type" := JStr "object" ]} |}.

Definition booted : Server :=
  {| token_world := start; ghl_clients := ∅;
     tools := [("whoami", whoami); ("broken", broken)] |}.

(** The same server with the third tool, and after "abcdefghij_one" got its
    client at "loc_9". *)
Definition scheduled : Server :=
  {| token_world := start; ghl_clients := ∅;
     tools := [("whoami", whoami); ("broken", broken); ("slots", slots)] |}.

Definition served : Server :=
  {| token_world := start;
     ghl_clients :=
       {[ client_cache_key "loc_9" "abcdefghij_one" :=
            {| token := "abcdefghij_one"; location_id := "loc_9" |} ]};
     tools := [("whoami", whoami); ("broken", broken)] |}.

End ServerScenario.

(** ** Odd answers and old entries *)
Module CoverageScenario.
Import Scenario.

(** The identity endpoint answers "listy" with a JSON list, and the
    exchange endpoint answers "plain" with an object that has no
    "access_token"; everything else is as in [Scenario]. *)
Definition odd_respond (n : nat) (req : http_request) : http_result :=
  if String.eqb (authorization req) "Bearer listy" then
    Responds {| status_code := 200; text := "[]"; response_json := Return (JArr []) |}
  else if String.eqb (authorization req) "Bearer plain" then
    if String.eqb (url req) (base_url +:+ "/functions/v1/get-token") then
      Responds (ok {[ "token_type" := JStr "bearer" ]})
    else ref_respond n req
  else ref_respond n req.

Definition odd_env : Env :=
  {| time_at := λ n, 1000000 * Z.of_nat n; respond := odd_respond |}.

(** A manager whose entries for "abc" ran out at time 0, and whose entry
    for ("abc", "bad") has a stamp that is no date. *)
Definition stale_validation : gmap string json :=
  {[ "valid" := JBool true; "expires_at" := JStr (isoformat (AwareDT 0)) ]}.

Definition stale_manager : TokenManager :=
  {| _token_cache := {[ "abc" := stale_validation ]};
     _location_token_cache :=
       {[ cache_key "abc" "loc_9" := location_entry (JStr "old_scoped") (AwareDT 0);
          cache_key "abc" "bad" := {[ "token" := JStr "x"; "expires_at" := JStr "yesterday" ]} ]};
     supabase_url := base_url |}.

Definition stale : World :=
  {| manager := stale_manager; clock_reads := 0; calls := [] |}.

End CoverageScenario.

(** * Properties *)

(** Running a coroutine one step at a time. *)
Ltac unfold_M :=
  unfold mbind, M_bind, mret, M_ret, bind, ret, raise, lift_outcome,
    get_self, set_self, datetime_now, client_post, try_except in *.

Section Properties.

Context {libs : Libraries} {libs_ok : LibrariesOk}.

(** ** The cache checks *)

Lemma truthy_stamp d : truthy (JStr (isoformat d)) = true.
Proof.
  simpl. rewrite bool_decide_eq_false_2; [done | apply isoformat_nonempty].
Qed.

Lemma unexpired_stamp env w t :
  unexpired (JStr (isoformat (AwareDT t))) env w
  = (Return (time_at env (clock_reads w) <? t), tick w).
Proof.
  unfold unexpired. rewrite truthy_stamp. unfold_M. simpl.
  by rewrite fromisoformat_isoformat.
Qed.

Lemma unexpired_falsy env w v :
  truthy v = false → unexpired v env w = (Return false, w).
Proof. intros Hv. unfold unexpired. by rewrite Hv. Qed.

(** The check reads the clock at most once and touches nothing else. *)
Lemma unexpired_frame env w v r w' :
  unexpired v env w = (r, w') → w' = w ∨ w' = tick w.
Proof.
  unfold unexpired. destruct (truthy v); unfold_M; [| intros [= <- <-]; by left].
  destruct (datetime_fromisoformat v) as [d | e]; [| intros [= <- <-]; by left].
  destruct (datetime_gt _ _); intros [= <- <-]; by right.
Qed.

Lemma unexpired_true env w v w' :
  unexpired v env w = (Return true, w') → truthy v = true ∧ w' = tick w.
Proof.
  unfold unexpired. destruct (truthy v); unfold_M; [| done].
  destruct (datetime_fromisoformat v) as [d | e]; [| done].
  destruct (datetime_gt _ _); [| done]. by intros [= _ <-].
Qed.

Lemma check_token_cache_absent env w T :
  _token_cache (manager w) !! T = None →
  check_token_cache T env w = (Return None, w).
Proof. intros Hl. unfold check_token_cache. unfold_M. by rewrite Hl. Qed.

Lemma check_token_cache_stamped env w T d t :
  _token_cache (manager w) !! T = Some d →
  d !! "expires_at" = Some (JStr (isoformat (AwareDT t))) →
  check_token_cache T env w
  = (Return (if time_at env (clock_reads w) <? t then Some d else None), tick w).
Proof.
  intros Hl Hd. unfold check_token_cache. unfold_M. rewrite Hl.
  unfold dict_get. rewrite Hd. simpl. by rewrite unexpired_stamp.
Qed.

Lemma check_token_cache_frame env w T r w' :
  check_token_cache T env w = (r, w') → w' = w ∨ w' = tick w.
Proof.
  unfold check_token_cache. unfold_M.
  destruct (_token_cache (manager w) !! T) as [cached |]; [| intros [= <- <-]; by left].
  destruct (unexpired _ env w) as [[fresh | e] w0] eqn:Hu;
    intros [= <- <-]; by apply unexpired_frame in Hu.
Qed.

Lemma check_token_cache_hit env w T d w' :
  check_token_cache T env w = (Return (Some d), w') →
  _token_cache (manager w) !! T = Some d ∧ truthy (dict_get d "expires_at") = true
  ∧ w' = tick w.
Proof.
  unfold check_token_cache. unfold_M.
  destruct (_token_cache (manager w) !! T) as [cached |]; [| done].
  destruct (unexpired _ env w) as [[[] | e] w0] eqn:Hu; [| done | done].
  intros [= <- <-]. by apply unexpired_true in Hu as [? ->].
Qed.

Lemma check_location_token_cache_absent env w T L :
  _location_token_cache (manager w) !! cache_key T L = None →
  check_location_token_cache T L env w = (Return None, w).
Proof. intros Hl. unfold check_location_token_cache. unfold_M. by rewrite Hl. Qed.

Lemma check_location_token_cache_entry env w T L tok t :
  _location_token_cache (manager w) !! cache_key T L = Some (location_entry tok (AwareDT t)) →
  check_location_token_cache T L env w
  = (Return (if time_at env (clock_reads w) <? t then Some tok else None), tick w).
Proof.
  intros Hl. unfold check_location_token_cache. unfold_M. rewrite Hl.
  unfold dict_get, location_entry.
  rewrite lookup_insert_ne by done. rewrite lookup_singleton_eq. simpl.
  rewrite unexpired_stamp.
  destruct (_ <? _); [| done].
  unfold getitem. by rewrite lookup_insert_eq.
Qed.

Lemma check_location_token_cache_frame env w T L r w' :
  check_location_token_cache T L env w = (r, w') → w' = w ∨ w' = tick w.
Proof.
  unfold check_location_token_cache. unfold_M.
  destruct (_location_token_cache (manager w) !! cache_key T L) as [cached |];
    [| intros [= <- <-]; by left].
  destruct (unexpired _ env w) as [[[] | e] w0] eqn:Hu; apply unexpired_frame in Hu.
  - destruct (getitem cached "token"); by intros [= <- <-].
  - by intros [= <- <-].
  - by intros [= <- <-].
Qed.


(** ** Validation *)

(** The stamped payload of a validation done when the clock shows [now]. *)
Lemma validate_via_supabase_200 env w T r B :
  let req := validate_request (supabase_url (manager w)) T in
  let d := <["expires_at" :=
               JStr (isoformat (AwareDT (time_at env (clock_reads w) + timedelta 5)))]> B in
  respond env (length (calls w)) req = Responds r →
  status_code r = 200 →
  response_json r = Return (JObj B) →
  validate_via_supabase T env w
  = (Return d, with_manager (store_validation T d (manager w)) (tick (sent req w))).
Proof.
  intros req d Hr Hs Hj. unfold validate_via_supabase. unfold_M. simpl.
  fold req. rewrite Hr, Hs. simpl. by rewrite Hj.
Qed.

Lemma validate_via_supabase_inv env w T d w1 :
  validate_via_supabase T env w = (Return d, w1) →
  ∃ r B,
    respond env (length (calls w)) (validate_request (supabase_url (manager w)) T)
      = Responds r
    ∧ status_code r = 200
    ∧ response_json r = Return (JObj B).
Proof.
  unfold validate_via_supabase. unfold_M. simpl.
  destruct (respond env _ _) as [r | e].
  - destruct (status_code r =? 200) eqn:Hs; [| done].
    apply Z.eqb_eq in Hs.
    destruct (response_json r) as [[| | | | |B] | e] eqn:Hj; simpl;
      try destruct (isinstance_RequestError e); try done.
    intros _. by exists r, B.
  - by destruct (isinstance_RequestError e).
Qed.

Lemma validate_bearer_token_miss env w T w0 :
  check_token_cache T env w = (Return None, w0) →
  validate_bearer_token T env w = validate_via_supabase T env w0.
Proof. intros Hc. unfold validate_bearer_token. unfold_M. by rewrite Hc. Qed.

Lemma validate_bearer_token_hit env w T d w0 :
  check_token_cache T env w = (Return (Some d), w0) →
  validate_bearer_token T env w = (Return d, w0).
Proof. intros Hc. unfold validate_bearer_token. unfold_M. by rewrite Hc. Qed.

(** A call that returns either found its result in the cache or fetched and
    stored it. *)
Lemma validate_bearer_token_inv env w T d w1 :
  validate_bearer_token T env w = (Return d, w1) →
  check_token_cache T env w = (Return (Some d), w1)
  ∨ ∃ w0, check_token_cache T env w = (Return None, w0)
          ∧ validate_via_supabase T env w0 = (Return d, w1).
Proof.
  unfold validate_bearer_token. unfold_M.
  destruct (check_token_cache T env w) as [[[c|] | e] w0]; [| | done].
  - intros [= <- <-]. by left.
  - intros Hv. right. by exists w0.
Qed.

Lemma check_frame_manager w w0 : w0 = w ∨ w0 = tick w → manager w0 = manager w.
Proof. by intros [-> | ->]. Qed.

Lemma check_frame_calls w w0 : w0 = w ∨ w0 = tick w → calls w0 = calls w.
Proof. by intros [-> | ->]. Qed.

(** Whatever the state of the cache, a returned validation carries a stamp. *)
Lemma validate_bearer_token_has_stamp env w T d w1 :
  validate_bearer_token T env w = (Return d, w1) → is_Some (d !! "expires_at").
Proof.
  intros [Hhit | (w0 & Hmiss & Hnet)]%validate_bearer_token_inv.
  - apply check_token_cache_hit in Hhit as (_ & Ht & _).
    unfold dict_get in Ht. destruct (d !! "expires_at"); [eauto | done].
  - destruct (validate_via_supabase_inv _ _ _ _ _ Hnet) as (r & B & Hr & Hs & Hj).
    rewrite (validate_via_supabase_200 _ _ _ _ _ Hr Hs Hj) in Hnet.
    injection Hnet as <- _. rewrite lookup_insert_eq. eauto.
Qed.

(** C10: when the validation endpoint answers 200 with the JSON object [B],
    [validate_bearer_token] returns, and stores under the token, not [B] but
    [B] with "expires_at" set to the stamp of now + 5 minutes, replacing any
    "expires_at" of [B]; and every result the function returns, from the
    endpoint or from the cache, has an "expires_at" entry. *)
Theorem validate_returns_stamped_payload env w T w0 r B :
  let req := validate_request (supabase_url (manager w)) T in
  let stamp := JStr (isoformat (AwareDT (time_at env (clock_reads w0) + timedelta 5))) in
  check_token_cache T env w = (Return None, w0) →
  respond env (length (calls w)) req = Responds r →
  status_code r = 200 →
  response_json r = Return (JObj B) →
  (∃ w1,
     validate_bearer_token T env w = (Return (<["expires_at" := stamp]> B), w1)
     ∧ _token_cache (manager w1) !! T = Some (<["expires_at" := stamp]> B)
     ∧ (<["expires_at" := stamp]> B) !! "expires_at" = Some stamp
     ∧ ∀ k, k ≠ "expires_at" → (<["expires_at" := stamp]> B) !! k = B !! k)
  ∧ ∀ env' w' T' d' w1',
      validate_bearer_token T' env' w' = (Return d', w1') → is_Some (d' !! "expires_at").
Proof.
  intros req stamp Hc Hr Hs Hj. split; [| apply validate_bearer_token_has_stamp].
  pose proof (check_token_cache_frame _ _ _ _ _ Hc) as Hf.
  rewrite (validate_bearer_token_miss _ _ _ _ Hc).
  subst req. rewrite <- (check_frame_manager _ _ Hf), <- (check_frame_calls _ _ Hf) in Hr.
  rewrite (validate_via_supabase_200 _ _ _ _ _ Hr Hs Hj).
  eexists. split; [done |]. simpl. rewrite !lookup_insert_eq.
  split; [done |]. split; [done |]. intros k Hk. by rewrite lookup_insert_ne.
Qed.

(** C5: when nothing usable is cached and the post to the validation
    endpoint raises an httpx.RequestError, [validate_bearer_token] raises
    HTTPException 503 (not 401), and the same exception leaves
    [HTTPAuthMiddleware.__call__] and [MCPAuthDependency.__call__]. *)
Theorem validate_network_failure_is_503 env w T w0 msg :
  let req := validate_request (supabase_url (manager w)) T in
  let err := HTTPException 503 "Authentication service unavailable" in
  check_token_cache T env w = (Return None, w0) →
  respond env (length (calls w)) req = PostRaises (RequestError msg) →
  validate_bearer_token T env w = (Raise err, sent req w0)
  ∧ (∀ c, credentials c = T →
       HTTPAuthMiddleware_call (Some c) env w = (Raise err, sent req w0))
  ∧ (∀ request c, credentials c = T →
       MCPAuthDependency_call request (Some c) env w = (Raise err, sent req w0)).
Proof.
  intros req err Hc Hr.
  pose proof (check_token_cache_frame _ _ _ _ _ Hc) as Hf.
  assert (Hv : validate_bearer_token T env w = (Raise err, sent req w0)).
  { rewrite (validate_bearer_token_miss _ _ _ _ Hc).
    subst req. rewrite <- (check_frame_manager _ _ Hf), <- (check_frame_calls _ _ Hf) in Hr.
    unfold validate_via_supabase. unfold_M. simpl.
    rewrite Hr. simpl. by rewrite (check_frame_manager _ _ Hf). }
  assert (Ha : ∀ c, credentials c = T →
                 HTTPAuthMiddleware_call (Some c) env w = (Raise err, sent req w0)).
  { intros c <-. unfold HTTPAuthMiddleware_call. unfold_M. by rewrite Hv. }
  split; [done |]. split; [done |].
  intros request c Hcred. unfold MCPAuthDependency_call. unfold_M.
  by rewrite (Ha c Hcred).
Qed.

(** C6, as the code has it: when nothing usable is cached and the validation
    endpoint answers with a status other than 200, [validate_bearer_token]
    raises HTTPException 401 whose detail is "Token validation failed: "
    followed by the response body text. *)
Theorem validate_rejection_is_401 env w T w0 r :
  let req := validate_request (supabase_url (manager w)) T in
  check_token_cache T env w = (Return None, w0) →
  respond env (length (calls w)) req = Responds r →
  status_code r ≠ 200 →
  validate_bearer_token T env w
  = (Raise (HTTPException 401 ("Token validation failed: " +:+ text r)), sent req w0).
Proof.
  intros req Hc Hr Hs.
  pose proof (check_token_cache_frame _ _ _ _ _ Hc) as Hf.
  rewrite (validate_bearer_token_miss _ _ _ _ Hc).
  subst req. rewrite <- (check_frame_manager _ _ Hf), <- (check_frame_calls _ _ Hf) in Hr.
  unfold validate_via_supabase. unfold_M. simpl. rewrite Hr.
  apply Z.eqb_neq in Hs. rewrite Hs. simpl. by rewrite (check_frame_manager _ _ Hf).
Qed.

(** C1: after a call that validated [T] at the endpoint, any call made while
    the clock shows less than the time of that validation + 5 minutes, on a
    world whose cache still holds the entry of [T], posts nothing and returns
    the same payload. *)
Theorem validate_cached_within_five_minutes env T w d w1 w2 :
  validate_bearer_token T env w = (Return d, w1) →
  calls w1 ≠ calls w →
  _token_cache (manager w2) !! T = _token_cache (manager w1) !! T →
  time_at env (clock_reads w2) < time_at env (Nat.pred (clock_reads w1)) + timedelta 5 →
  validate_bearer_token T env w2 = (Return d, tick w2)
  ∧ calls (tick w2) = calls w2
  ∧ manager (tick w2) = manager w2.
Proof.
  intros Hv Hcalls Hcache Htime. split; [| done].
  apply validate_bearer_token_inv in Hv as [Hhit | (w0 & Hmiss & Hnet)].
  { apply check_token_cache_hit in Hhit as (_ & _ & ->). done. }
  destruct (validate_via_supabase_inv _ _ _ _ _ Hnet) as (r & B & Hr & Hs & Hj).
  rewrite (validate_via_supabase_200 _ _ _ _ _ Hr Hs Hj) in Hnet.
  injection Hnet as <- <-. simpl in *.
  rewrite lookup_insert_eq in Hcache.
  apply validate_bearer_token_hit.
  erewrite check_token_cache_stamped; [| exact Hcache | apply lookup_insert_eq].
  apply Z.ltb_lt in Htime. by rewrite Htime.
Qed.

(** ** Location resolution *)

Lemma get_location_from_token_returns env w T d w1 :
  validate_bearer_token T env w = (Return d, w1) →
  get_location_from_token T env w
  = (Return
       match jwt_decode T with
       | Return claims =>
           if truthy (dict_get claims "locationId")
           then dict_get claims "locationId"
           else JStr "test_location_id"
       | Raise _ => JStr "test_location_id"
       end, w1).
Proof.
  intros Hv. unfold get_location_from_token. unfold_M. rewrite Hv.
  destruct (jwt_decode T) as [claims | e]; [| done].
  by destruct (truthy (dict_get claims "locationId")).
Qed.

Lemma get_location_from_token_raises env w T e w1 :
  validate_bearer_token T env w = (Raise e, w1) →
  get_location_from_token T env w = (Raise e, w1).
Proof. intros Hv. unfold get_location_from_token. unfold_M. by rewrite Hv. Qed.

(** C4, as the code has it: [get_location_from_token] raises exactly when
    its own call to [validate_bearer_token] raises, and then the same
    exception; when the validation returns, it returns the sentinel
    "test_location_id" or the truthy "locationId" claim of the token, which
    is a string whenever that claim is one. *)
Theorem get_location_from_token_total_after_validation env w T :
  match validate_bearer_token T env w with
  | (Return _, w1) =>
      ∃ v, get_location_from_token T env w = (Return v, w1)
           ∧ (v = JStr "test_location_id"
              ∨ ∃ claims, jwt_decode T = Return claims
                          ∧ claims !! "locationId" = Some v ∧ truthy v = true)
           ∧ ((∀ claims x, jwt_decode T = Return claims →
                           claims !! "locationId" = Some x → is_str x = true) →
              is_str v = true)
  | (Raise e, w1) => get_location_from_token T env w = (Raise e, w1)
  end.
Proof.
  destruct (validate_bearer_token T env w) as [[d | e] w1] eqn:Hv;
    [| by apply get_location_from_token_raises].
  rewrite (get_location_from_token_returns _ _ _ _ _ Hv).
  eexists. split; [done |].
  destruct (jwt_decode T) as [claims | e]; [| by split; [left |]].
  unfold dict_get. destruct (claims !! "locationId") as [v |] eqn:Hl; simpl;
    [| by split; [left |]].
  destruct (truthy v) eqn:Ht; [| by split; [left |]].
  split; [right; by exists claims | intros Hstr; by apply (Hstr claims)].
Qed.

(** C7, as the code has it: for a token whose validation returns,
    [get_location_from_token] returns the "locationId" claim exactly when the
    claim is present and truthy; it returns "test_location_id" when the claim
    is absent, when it is present and falsy (the empty string, null, 0,
    false, an empty list or object), and when decoding the token raises. *)
Theorem get_location_from_token_cases env w T d w1 :
  validate_bearer_token T env w = (Return d, w1) →
  (∀ claims v, jwt_decode T = Return claims → claims !! "locationId" = Some v →
     truthy v = true →
     get_location_from_token T env w = (Return v, w1))
  ∧ (∀ claims v, jwt_decode T = Return claims → claims !! "locationId" = Some v →
       truthy v = false →
       get_location_from_token T env w = (Return (JStr "test_location_id"), w1))
  ∧ (∀ claims, jwt_decode T = Return claims → claims !! "locationId" = None →
       get_location_from_token T env w = (Return (JStr "test_location_id"), w1))
  ∧ (∀ e, jwt_decode T = Raise e →
       get_location_from_token T env w = (Return (JStr "test_location_id"), w1)).
Proof.
  intros Hv. rewrite (get_location_from_token_returns _ _ _ _ _ Hv).
  repeat split.
  - intros claims v -> Hl Ht. unfold dict_get. rewrite Hl. simpl. by rewrite Ht.
  - intros claims v -> Hl Ht. unfold dict_get. rewrite Hl. simpl. by rewrite Ht.
  - intros claims -> Hl. unfold dict_get. by rewrite Hl.
  - by intros e ->.
Qed.

(** ** Token exchange *)

Lemma exchange_via_supabase_200 env w T L r B :
  let req := exchange_request (supabase_url (manager w)) T L in
  let tok := dict_get_default B "access_token" (JStr T) in
  let entry := location_entry tok (AwareDT (time_at env (clock_reads w) + timedelta 30)) in
  respond env (length (calls w)) req = Responds r →
  status_code r = 200 →
  response_json r = Return (JObj B) →
  exchange_via_supabase T L env w
  = (Return tok,
     with_manager (store_location_token (cache_key T L) entry (manager w))
       (tick (sent req w))).
Proof.
  intros req tok entry Hr Hs Hj. unfold exchange_via_supabase. unfold_M. simpl.
  fold req. rewrite Hr, Hs. simpl. by rewrite Hj.
Qed.

Lemma exchange_via_supabase_fails env w T L :
  let req := exchange_request (supabase_url (manager w)) T L in
  exchange_fails (respond env (length (calls w)) req) →
  exchange_via_supabase T L env w = (Return (JStr T), sent req w).
Proof.
  intros req Hf. unfold exchange_via_supabase. unfold_M. simpl. fold req.
  destruct Hf as [e | r Hs | r e Hs Hj | r v Hs Hj Hv].
  - done.
  - apply Z.eqb_neq in Hs. by rewrite Hs.
  - by rewrite Hs, Hj.
  - rewrite Hs, Hj. simpl. destruct v as [| | | | | B]; try done. by destruct (Hv B).
Qed.

(** Whatever the endpoint does, the exchange posts exactly one request. *)
Lemma exchange_via_supabase_posts env w T L :
  calls (exchange_via_supabase T L env w).2
  = (calls w ++ [exchange_request (supabase_url (manager w)) T L])%list.
Proof.
  unfold exchange_via_supabase. unfold_M. simpl.
  destruct (respond env _ _) as [rsp | e]; [| done].
  destruct (status_code rsp =? 200); [| done].
  destruct (response_json rsp) as [v | e]; [| done].
  simpl. by destruct (json_get v _ _).
Qed.

Lemma get_location_token_miss env w T L w0 :
  check_location_token_cache T L env w = (Return None, w0) →
  get_location_token T L env w = exchange_via_supabase T L env w0.
Proof. intros Hc. unfold get_location_token. unfold_M. by rewrite Hc. Qed.

Lemma get_location_token_hit env w T L tok w0 :
  check_location_token_cache T L env w = (Return (Some tok), w0) →
  get_location_token T L env w = (Return tok, w0).
Proof. intros Hc. unfold get_location_token. unfold_M. by rewrite Hc. Qed.

(** A stamp that is stale stays stale while the clock does not run
    backwards. *)
Lemma unexpired_false_later env w v w0 w2 :
  unexpired v env w = (Return false, w0) →
  time_at env (clock_reads w) ≤ time_at env (clock_reads w2) →
  ∃ w2', unexpired v env w2 = (Return false, w2') ∧ (w2' = w2 ∨ w2' = tick w2).
Proof.
  unfold unexpired. destruct (truthy v); unfold_M; [| intros _ _; eauto].
  destruct (datetime_fromisoformat v) as [[e | e] | ?]; simpl; [| done | done].
  intros [= Hlt _] Hle. apply Z.ltb_ge in Hlt.
  assert ((time_at env (clock_reads w2) <? e) = false) as -> by (apply Z.ltb_ge; lia).
  eauto.
Qed.

Lemma check_location_token_cache_miss_later env w T L w0 w2 :
  check_location_token_cache T L env w = (Return None, w0) →
  _location_token_cache (manager w2) !! cache_key T L
    = _location_token_cache (manager w) !! cache_key T L →
  time_at env (clock_reads w) ≤ time_at env (clock_reads w2) →
  ∃ w2', check_location_token_cache T L env w2 = (Return None, w2')
         ∧ (w2' = w2 ∨ w2' = tick w2).
Proof.
  unfold check_location_token_cache. unfold_M. intros Hc -> Hle.
  destruct (_location_token_cache (manager w) !! cache_key T L) as [cached |];
    [| eauto].
  destruct (unexpired _ env w) as [[[] | e] w'] eqn:Hu.
  - by destruct (getitem cached "token").
  - destruct (unexpired_false_later _ _ _ _ w2 Hu Hle) as (w2' & -> & Hw2'). eauto.
  - done.
Qed.

(** C3: when the cache check finds nothing usable and the exchange fails
    (the endpoint answers with a status other than 200, or anything in the
    try block raises), [get_location_token] does not raise, returns the
    bearer token itself, and leaves the manager, hence both caches, as they
    were; and a later call, with the clock not set back and the entry of the
    pair untouched, posts the exchange request again. *)
Theorem get_location_token_failure_falls_back env w T L w0 :
  let req := exchange_request (supabase_url (manager w)) T L in
  check_location_token_cache T L env w = (Return None, w0) →
  exchange_fails (respond env (length (calls w)) req) →
  get_location_token T L env w = (Return (JStr T), sent req w0)
  ∧ manager (sent req w0) = manager w
  ∧ ∀ w2,
      _location_token_cache (manager w2) !! cache_key T L
        = _location_token_cache (manager (sent req w0)) !! cache_key T L →
      time_at env (clock_reads w) ≤ time_at env (clock_reads w2) →
      ∃ r w3, get_location_token T L env w2 = (r, w3)
              ∧ calls w3
                = (calls w2 ++ [exchange_request (supabase_url (manager w2)) T L])%list.
Proof.
  intros req Hc Hfail.
  pose proof (check_location_token_cache_frame _ _ _ _ _ _ Hc) as Hf.
  pose proof (check_frame_manager _ _ Hf) as Hm.
  pose proof (check_frame_calls _ _ Hf) as Hcs.
  split; [| split; [done |]].
  - rewrite (get_location_token_miss _ _ _ _ _ Hc).
    subst req. rewrite <- Hm, <- Hcs in Hfail.
    rewrite (exchange_via_supabase_fails _ _ _ _ Hfail). by rewrite Hm.
  - intros w2 Hcache Hle. simpl in Hcache. rewrite Hm in Hcache.
    destruct (check_location_token_cache_miss_later _ _ _ _ _ w2 Hc Hcache Hle)
      as (w2' & Hc2 & Hf2).
    rewrite (get_location_token_miss _ _ _ _ _ Hc2).
    pose proof (exchange_via_supabase_posts env w2' T L) as Hp.
    destruct (exchange_via_supabase T L env w2') as [r w3].
    exists r, w3. split; [done |].
    by rewrite <- (check_frame_manager _ _ Hf2), <- (check_frame_calls _ _ Hf2).
Qed.

(** C2: when the cache check finds nothing usable and the exchange endpoint
    answers 200 with a JSON object that has an "access_token" entry,
    [get_location_token] returns that entry and stores it under the cache key
    of the pair with the stamp of now + 30 minutes; any call made while the
    clock shows less than that, on a world whose cache still holds this
    entry, returns the same token and posts nothing. *)
Theorem get_location_token_success_is_cached env w T L w0 r B tok :
  let req := exchange_request (supabase_url (manager w)) T L in
  let expires := AwareDT (time_at env (clock_reads w0) + timedelta 30) in
  check_location_token_cache T L env w = (Return None, w0) →
  respond env (length (calls w)) req = Responds r →
  status_code r = 200 →
  response_json r = Return (JObj B) →
  B !! "access_token" = Some tok →
  ∃ w1,
    get_location_token T L env w = (Return tok, w1)
    ∧ calls w1 = (calls w ++ [req])%list
    ∧ _location_token_cache (manager w1) !! cache_key T L
      = Some (location_entry tok expires)
    ∧ ∀ w2,
        _location_token_cache (manager w2) !! cache_key T L
          = _location_token_cache (manager w1) !! cache_key T L →
        time_at env (clock_reads w2) < time_at env (clock_reads w0) + timedelta 30 →
        get_location_token T L env w2 = (Return tok, tick w2)
        ∧ calls (tick w2) = calls w2.
Proof.
  intros req expires Hc Hr Hs Hj Htok.
  pose proof (check_location_token_cache_frame _ _ _ _ _ _ Hc) as Hf.
  pose proof (check_frame_manager _ _ Hf) as Hm.
  pose proof (check_frame_calls _ _ Hf) as Hcs.
  rewrite (get_location_token_miss _ _ _ _ _ Hc).
  subst req. rewrite <- Hm, <- Hcs in Hr.
  rewrite (exchange_via_supabase_200 _ _ _ _ _ _ Hr Hs Hj).
  unfold dict_get_default. rewrite Htok. simpl.
  eexists. split; [done |]. simpl. rewrite lookup_insert_eq, Hm, Hcs.
  split; [done |]. split; [done |].
  intros w2 Hcache Hlt. split; [| done].
  apply get_location_token_hit.
  rewrite (check_location_token_cache_entry _ _ _ _ _ _ Hcache).
  apply Z.ltb_lt in Hlt. by rewrite Hlt.
Qed.

(** The key separates the pairs whose bearer token has no colon. *)
Lemma append_nil_l (s : string) : "" +:+ s = s.
Proof. reflexivity. Qed.

Lemma append_cons_l (a : ascii) (s t : string) : String a s +:+ t = String a (s +:+ t).
Proof. reflexivity. Qed.

Lemma cache_key_inj_without_colon T1 L1 T2 L2 :
  has_colon T1 = false → has_colon T2 = false →
  cache_key T1 L1 = cache_key T2 L2 → T1 = T2 ∧ L1 = L2.
Proof.
  unfold cache_key. revert T2.
  induction T1 as [| a T1 IH]; intros [| b T2]; simpl;
    repeat (rewrite append_nil_l || rewrite append_cons_l).
  - by intros _ _ [= ->].
  - intros _ [Hb _]%orb_false_elim [= <- _]. done.
  - intros [Ha _]%orb_false_elim _ [= -> _]. done.
  - intros [_ Ha]%orb_false_elim [_ Hb]%orb_false_elim [= <- Hk].
    by destruct (IH T2 Ha Hb Hk) as [-> ->].
Qed.

(** ** The authentication step *)

Lemma validate_via_supabase_cases env w T r w1 :
  let req := validate_request (supabase_url (manager w)) T in
  validate_via_supabase T env w = (r, w1) →
  (manager w1 = manager w ∧ calls w1 = (calls w ++ [req])%list)
  ∨ ∃ B, let d := <["expires_at" :=
                      JStr (isoformat (AwareDT (time_at env (clock_reads w) + timedelta 5)))]> B in
         r = Return d
         ∧ w1 = with_manager (store_validation T d (manager w)) (tick (sent req w)).
Proof.
  intros req. unfold validate_via_supabase. unfold_M. simpl. fold req.
  destruct (respond env _ _) as [rsp | e].
  - destruct (status_code rsp =? 200).
    + destruct (response_json rsp) as [v | e]; simpl.
      * destruct v as [| | | | | B]; simpl;
          try (intros [= <- <-]; by left).
        intros [= <- <-]. right. by exists B.
      * destruct (isinstance_RequestError e); intros [= <- <-]; by left.
    + intros [= <- <-]. by left.
  - destruct (isinstance_RequestError e); intros [= <- <-]; by left.
Qed.

Lemma only_validates_refl T w : only_validates T w w.
Proof.
  split; [done |]. split; [done |]. exists []. by rewrite app_nil_r.
Qed.

Lemma only_validates_tick T w : only_validates T w (tick w).
Proof.
  split; [done |]. split; [done |]. exists []. by rewrite app_nil_r.
Qed.

Lemma only_validates_trans T w w1 w2 :
  only_validates T w w1 → only_validates T w1 w2 → only_validates T w w2.
Proof.
  intros (Hu1 & Hl1 & new1 & Hc1 & Hn1) (Hu2 & Hl2 & new2 & Hc2 & Hn2).
  split; [congruence |]. split; [congruence |].
  exists (new1 ++ new2)%list. split.
  - by rewrite Hc2, Hc1, app_assoc.
  - rewrite Hu1 in Hn2. by apply Forall_app.
Qed.

Lemma validate_bearer_token_only_validates env w T r w1 :
  validate_bearer_token T env w = (r, w1) → only_validates T w w1.
Proof.
  unfold validate_bearer_token. unfold_M.
  destruct (check_token_cache T env w) as [[[c |] | e] w0] eqn:Hc;
    pose proof (check_token_cache_frame _ _ _ _ _ Hc) as Hf.
  - intros [= <- <-]. destruct Hf as [-> | ->];
      [apply only_validates_refl | apply only_validates_tick].
  - intros Hv. apply (only_validates_trans _ _ w0).
    { destruct Hf as [-> | ->]; [apply only_validates_refl | apply only_validates_tick]. }
    apply validate_via_supabase_cases in Hv as [[Hm Hcs] | (B & _ & ->)].
    + split; [by rewrite Hm |]. split; [by rewrite Hm |].
      eexists. split; [exact Hcs |]. by apply Forall_singleton.
    + split; [done |]. split; [done |].
      eexists. split; [done |]. by apply Forall_singleton.
  - intros [= <- <-]. destruct Hf as [-> | ->];
      [apply only_validates_refl | apply only_validates_tick].
Qed.

Lemma validate_bearer_token_wf env w T r w1 :
  token_cache_wf (manager w) →
  validate_bearer_token T env w = (r, w1) →
  token_cache_wf (manager w1).
Proof.
  intros Hwf. unfold validate_bearer_token. unfold_M.
  destruct (check_token_cache T env w) as [[[c |] | e] w0] eqn:Hc;
    pose proof (check_frame_manager _ _ (check_token_cache_frame _ _ _ _ _ Hc)) as Hm.
  - intros [= <- <-]. by rewrite Hm.
  - intros [[-> _] | (B & _ & ->)]%validate_via_supabase_cases; [by rewrite Hm |].
    unfold token_cache_wf. simpl. intros T' d'. rewrite Hm.
    destruct (decide (T = T')) as [-> | Hne].
    + rewrite lookup_insert_eq. intros [= <-]. rewrite lookup_insert_eq. eauto.
    + rewrite lookup_insert_ne by done. apply Hwf.
  - intros [= <- <-]. by rewrite Hm.
Qed.

(** On a well-formed cache, a token the endpoint accepts validates. *)
Lemma validate_bearer_token_accepted env w T :
  token_cache_wf (manager w) →
  accepts env (validate_request (supabase_url (manager w)) T) →
  ∃ d w1, validate_bearer_token T env w = (Return d, w1).
Proof.
  intros Hwf Hacc.
  assert (Hcheck : ∃ o w0, check_token_cache T env w = (Return o, w0)).
  { destruct (_token_cache (manager w) !! T) as [cached |] eqn:Hl.
    - destruct (Hwf _ _ Hl) as [t Ht].
      rewrite (check_token_cache_stamped _ _ _ _ _ Hl Ht). eauto.
    - rewrite (check_token_cache_absent _ _ _ Hl). eauto. }
  destruct Hcheck as ([c |] & w0 & Hc).
  - rewrite (validate_bearer_token_hit _ _ _ _ _ Hc). eauto.
  - rewrite (validate_bearer_token_miss _ _ _ _ Hc).
    pose proof (check_token_cache_frame _ _ _ _ _ Hc) as Hf.
    destruct (Hacc (length (calls w0))) as (r & B & Hr & Hs & Hj).
    rewrite <- (check_frame_manager _ _ Hf) in Hr.
    rewrite (validate_via_supabase_200 _ _ _ _ _ Hr Hs Hj). eauto.
Qed.




Lemma HTTPAuthMiddleware_call_accepted env w c :
  token_cache_wf (manager w) →
  accepts env (validate_request (supabase_url (manager w)) (credentials c)) →
  ∃ w1, HTTPAuthMiddleware_call (Some c) env w
        = (Return
             match jwt_decode (credentials c) with
             | Return claims =>
                 if truthy (dict_get claims "locationId")
                 then dict_get claims "locationId"
                 else JStr "test_location_id"
             | Raise _ => JStr "test_location_id"
             end, w1).
Proof.
  intros Hwf Hacc.
  destruct (validate_bearer_token_accepted _ _ _ Hwf Hacc) as (d & w' & Hv).
  pose proof (validate_bearer_token_wf _ _ _ _ _ Hwf Hv) as Hwf'.
  pose proof (validate_bearer_token_only_validates _ _ _ _ _ Hv) as (Hu & _).
  rewrite <- Hu in Hacc.
  destruct (validate_bearer_token_accepted _ _ _ Hwf' Hacc) as (d' & w1 & Hv').
  exists w1. unfold HTTPAuthMiddleware_call. unfold_M.
  by rewrite Hv, (get_location_from_token_returns _ _ _ _ _ Hv').
Qed.


(** ** What a call leaves alone

    The statements above ask that the cache still holds the entry under
    discussion.  Calls for other tokens, or for pairs with another key, keep
    it. *)

Lemma exchange_via_supabase_cases env w T L r w1 :
  exchange_via_supabase T L env w = (r, w1) →
  manager w1 = manager w
  ∨ ∃ entry, manager w1 = store_location_token (cache_key T L) entry (manager w).
Proof.
  unfold exchange_via_supabase. unfold_M. simpl.
  destruct (respond env _ _) as [rsp | e]; [| intros [= <- <-]; by left].
  destruct (status_code rsp =? 200); [| intros [= <- <-]; by left].
  destruct (response_json rsp) as [v | e]; simpl; [| intros [= <- <-]; by left].
  destruct (json_get v _ _) as [tok | e]; simpl; intros [= <- <-]; [right | by left].
  by eexists.
Qed.

Lemma get_location_token_cases env w T L r w1 :
  get_location_token T L env w = (r, w1) →
  manager w1 = manager w
  ∨ ∃ entry, manager w1 = store_location_token (cache_key T L) entry (manager w).
Proof.
  unfold get_location_token. unfold_M.
  destruct (check_location_token_cache T L env w) as [[[tok |] | e] w0] eqn:Hc;
    pose proof (check_frame_manager _ _ (check_location_token_cache_frame _ _ _ _ _ _ Hc))
      as Hm.
  - intros [= <- <-]. by left.
  - intros Hx. apply exchange_via_supabase_cases in Hx. by rewrite Hm in Hx.
  - intros [= <- <-]. by left.
Qed.

Lemma get_location_token_keeps_other_keys env w T L r w1 k :
  k ≠ cache_key T L →
  get_location_token T L env w = (r, w1) →
  _location_token_cache (manager w1) !! k = _location_token_cache (manager w) !! k.
Proof.
  intros Hk [-> | [entry ->]]%get_location_token_cases; [done |].
  simpl. by rewrite lookup_insert_ne.
Qed.

Lemma get_location_token_keeps_validations env w T L r w1 :
  get_location_token T L env w = (r, w1) →
  _token_cache (manager w1) = _token_cache (manager w).
Proof. by intros [-> | [entry ->]]%get_location_token_cases. Qed.

Lemma validate_bearer_token_keeps_other_tokens env w T r w1 T' :
  T' ≠ T →
  validate_bearer_token T env w = (r, w1) →
  _token_cache (manager w1) !! T' = _token_cache (manager w) !! T'.
Proof.
  intros Hne. unfold validate_bearer_token. unfold_M.
  destruct (check_token_cache T env w) as [[[c |] | e] w0] eqn:Hc;
    pose proof (check_frame_manager _ _ (check_token_cache_frame _ _ _ _ _ Hc)) as Hm.
  - intros [= <- <-]. by rewrite Hm.
  - intros [[-> _] | (B & _ & ->)]%validate_via_supabase_cases; [by rewrite Hm |].
    simpl. rewrite lookup_insert_ne by done. by rewrite Hm.
  - intros [= <- <-]. by rewrite Hm.
Qed.

Lemma validate_bearer_token_keeps_location_tokens env w T r w1 :
  validate_bearer_token T env w = (r, w1) →
  _location_token_cache (manager w1) = _location_token_cache (manager w).
Proof. by intros (_ & Hl & _)%validate_bearer_token_only_validates. Qed.

End Properties.

(** * The statements on the concrete outside *)

Module ScenarioFacts.
Import Scenario.

Lemma pos_digits_cons p : ∃ c rest, pos_digits p = String c rest.
Proof. destruct p; simpl; eauto. Qed.

Lemma parse_pos_digits p : parse_pos (pos_digits p) = Some p.
Proof.
  induction p as [q IH | q IH |]; [| | done].
  - change (pos_digits q~1) with (String "1"%char (pos_digits q)).
    destruct (pos_digits_cons q) as (c & rest & Hq). rewrite Hq in *.
    change (parse_pos (String "1"%char (String c rest)))
      with (match parse_pos (String c rest) with
            | Some r => Some r~1%positive
            | None => None
            end).
    by rewrite IH.
  - change (pos_digits q~0) with (String "0"%char (pos_digits q)).
    destruct (pos_digits_cons q) as (c & rest & Hq). rewrite Hq in *.
    change (parse_pos (String "0"%char (String c rest)))
      with (match parse_pos (String c rest) with
            | Some r => Some r~0%positive
            | None => None
            end).
    by rewrite IH.
Qed.

Lemma parse_Z_digits z : parse_Z (Z_digits z) = Some z.
Proof. destruct z as [| p | p]; simpl; [done | |]; by rewrite parse_pos_digits. Qed.

#[export] Instance libraries_ok : @LibrariesOk libraries.
Proof.
  split.
  - intros [us | us]; simpl; by rewrite parse_Z_digits.
  - by intros [us | us].
Qed.

End ScenarioFacts.

Module Runs.
Import Scenario ScenarioFacts.

(** ** The theorems at work *)

Lemma validate_cached_within_five_minutes_run :
  let d := <["expires_at" := JStr (isoformat (AwareDT (timedelta 5)))]> identity in
  let w1 := (validate_bearer_token "abc" env start).2 in
  validate_bearer_token "abc" env start = (Return d, w1)
  ∧ validate_bearer_token "abc" env w1 = (Return d, tick w1)
  ∧ length (calls (tick w1)) = 1%nat.
Proof.
  intros d w1.
  assert (Hfirst : validate_bearer_token "abc" env start = (Return d, w1))
    by (vm_compute; reflexivity).
  split; [exact Hfirst |]. split; [| vm_compute; reflexivity].
  apply (validate_cached_within_five_minutes env "abc" start d w1 w1 Hfirst).
  - vm_compute. discriminate.
  - reflexivity.
  - vm_compute. reflexivity.
Defined.

Lemma get_location_token_success_is_cached_run :
  ∃ w1,
    get_location_token "abc" "loc_9" env start = (Return (JStr "scoped_1"), w1)
    ∧ get_location_token "abc" "loc_9" env w1 = (Return (JStr "scoped_1"), tick w1)
    ∧ length (calls (tick w1)) = 1%nat.
Proof.
  destruct (get_location_token_success_is_cached env start "abc" "loc_9" start
              (ok {[ "access_token" := JStr "scoped_1" ]})
              {[ "access_token" := JStr "scoped_1" ]} (JStr "scoped_1"))
    as (w1 & Hrun & Hcalls & _ & Hlater); [reflexivity .. |].
  exists w1. split; [exact Hrun |].
  assert (Hw1 : w1 = (get_location_token "abc" "loc_9" env start).2) by (by rewrite Hrun).
  split.
  - apply Hlater; [reflexivity |]. rewrite Hw1. vm_compute. reflexivity.
  - simpl. by rewrite Hcalls.
Defined.

Lemma get_location_token_failure_falls_back_run :
  let req := exchange_request base_url "zzz" "loc_9" in
  get_location_token "zzz" "loc_9" env start = (Return (JStr "zzz"), sent req start)
  ∧ manager (sent req start) = manager start
  ∧ ∃ r w3, get_location_token "zzz" "loc_9" env (sent req start) = (r, w3)
            ∧ calls w3 = [req; req].
Proof.
  intros req.
  destruct (get_location_token_failure_falls_back env start "zzz" "loc_9" start)
    as (Hrun & Hm & Hlater).
  - reflexivity.
  - change (exchange_fails (Responds (error 500 "exchange failed"))).
    apply fails_status. vm_compute. discriminate.
  - split; [exact Hrun |]. split; [exact Hm |].
    destruct (Hlater (sent req start)) as (r & w3 & Hr & Hc).
    + reflexivity.
    + vm_compute. discriminate.
    + exists r, w3. split; [exact Hr | exact Hc].
Defined.

Lemma validate_network_failure_is_503_run :
  validate_bearer_token "down" env start
  = (Raise (HTTPException 503 "Authentication service unavailable"),
     sent (validate_request base_url "down") start).
Proof.
  apply (validate_network_failure_is_503 env start "down" start "Network error");
    reflexivity.
Defined.

Lemma validate_rejection_is_401_run :
  validate_bearer_token "teapot" env start
  = (Raise (HTTPException 401 "Token validation failed: boom"),
     sent (validate_request base_url "teapot") start).
Proof.
  apply (validate_rejection_is_401 env start "teapot" start (error 500 "boom"));
    [reflexivity | reflexivity | vm_compute; discriminate].
Defined.

Lemma get_location_from_token_cases_run :
  (get_location_from_token "abc" env start).1 = Return (JStr "loc_9").
Proof.
  pose (d := <["expires_at" := JStr (isoformat (AwareDT (timedelta 5)))]> identity).
  pose (w1 := (validate_bearer_token "abc" env start).2).
  assert (Hfirst : validate_bearer_token "abc" env start = (Return d, w1))
    by (vm_compute; reflexivity).
  destruct (get_location_from_token_cases env start "abc" d w1 Hfirst) as (Hclaim & _).
  by rewrite (Hclaim {[ "locationId" := JStr "loc_9"; "companyId" := JStr "comp123" ]}
                (JStr "loc_9") eq_refl eq_refl eq_refl).
Defined.

Lemma get_location_from_token_total_after_validation_run :
  ∃ w1, get_location_from_token "abc" env start = (Return (JStr "loc_9"), w1).
Proof.
  pose (d := <["expires_at" := JStr (isoformat (AwareDT (timedelta 5)))]> identity).
  pose (w1 := (validate_bearer_token "abc" env start).2).
  assert (Hfirst : validate_bearer_token "abc" env start = (Return d, w1))
    by (vm_compute; reflexivity).
  pose proof (get_location_from_token_total_after_validation env start "abc") as Htotal.
  rewrite Hfirst in Htotal. destruct Htotal as (v & Hrun & _ & _).
  exists w1. rewrite Hrun. f_equal.
  assert (Hv : (get_location_from_token "abc" env start).1 = Return (JStr "loc_9"))
    by (vm_compute; reflexivity).
  rewrite Hrun in Hv. simpl in Hv. by rewrite Hv.
Defined.

Lemma validate_returns_stamped_payload_run :
  let stamp := JStr (isoformat (AwareDT (timedelta 5))) in
  (validate_bearer_token "abc" env start).1
  = Return (<["expires_at" := stamp]> identity).
Proof.
  intros stamp.
  destruct (validate_returns_stamped_payload env start "abc" start (ok identity) identity)
    as [(w1 & Hrun & _) _]; [reflexivity .. |].
  by rewrite Hrun.
Defined.


(** ** Where the code departs from the claims as they are written *)

(** C4 as stated fails on both counts.  The token "invalid_token" is
    rejected by the identity endpoint, and [get_location_from_token] raises.
    The token "numeric_location" validates, its "locationId" claim is the
    number 42, and [get_location_from_token] returns that number, which is
    no string. *)
Lemma get_location_from_token_raises_or_returns_number :
  ((get_location_from_token "invalid_token" env start).1
   = Raise (HTTPException 401 "Token validation failed: Invalid token")
   ∧ ¬ ∃ s w1, get_location_from_token "invalid_token" env start = (Return (JStr s), w1))
  ∧ ((∃ d w1, validate_bearer_token "numeric_location" env start = (Return d, w1))
     ∧ (∃ claims, jwt_decode "numeric_location" = Return claims
                  ∧ claims !! "locationId" = Some (JNum 42))
     ∧ (get_location_from_token "numeric_location" env start).1 = Return (JNum 42)
     ∧ is_str (JNum 42) = false
     ∧ ¬ ∃ s w1, get_location_from_token "numeric_location" env start
                 = (Return (JStr s), w1)).
Proof.
  split; [split | split; [| split; [| split; [| split]]]].
  - vm_compute. reflexivity.
  - intros (s & w1 & Hrun). vm_compute in Hrun. discriminate.
  - eexists _, _. vm_compute. reflexivity.
  - eexists. split; reflexivity.
  - vm_compute. reflexivity.
  - reflexivity.
  - intros (s & w1 & Hrun). vm_compute in Hrun. discriminate.
Qed.

(** C6 as stated fails: the endpoint answers 500 to "teapot", and the
    exception raised has status 401 and a detail made of the body text
    only. *)
Lemma validate_rejection_drops_status :
  respond env 0 (validate_request base_url "teapot") = Responds (error 500 "boom")
  ∧ status_code (error 500 "boom") = 500
  ∧ (validate_bearer_token "teapot" env start).1
    = Raise (HTTPException 401 "Token validation failed: boom")
  ∧ 401 ≠ 500.
Proof.
  split; [reflexivity |]. split; [reflexivity |].
  split; [vm_compute; reflexivity | discriminate].
Qed.

(** C7 as stated fails: the claims of "empty_location" contain a
    "locationId", the empty string, and the validated token resolves to
    the sentinel and not to that claim. *)
Lemma get_location_from_token_ignores_empty_claim :
  (∃ d w1, validate_bearer_token "empty_location" env start = (Return d, w1))
  ∧ (∃ claims, jwt_decode "empty_location" = Return claims
               ∧ claims !! "locationId" = Some (JStr ""))
  ∧ (get_location_from_token "empty_location" env start).1
    = Return (JStr "test_location_id")
  ∧ JStr "test_location_id" ≠ JStr "".
Proof.
  split; [| split; [| split]].
  - eexists _, _. vm_compute. reflexivity.
  - eexists. split; reflexivity.
  - vm_compute. reflexivity.
  - discriminate.
Qed.

(** C8: the pairs ("a:b", "c") and ("a", "b:c") differ and have the same
    cache key.  On its own, the exchange for ("a", "b:c") fails and falls
    back to "a"; made after the exchange for ("a:b", "c"), it posts nothing
    and returns the token scoped for that other pair. *)
Theorem cache_key_collision :
  ("a:b", "c") ≠ ("a", "b:c")
  ∧ cache_key "a:b" "c" = cache_key "a" "b:c"
  ∧ (get_location_token "a" "b:c" env start).1 = Return (JStr "a")
  ∧ let w1 := (get_location_token "a:b" "c" env start).2 in
    (get_location_token "a:b" "c" env start).1 = Return (JStr "scoped_for_c")
    ∧ get_location_token "a" "b:c" env w1 = (Return (JStr "scoped_for_c"), tick w1)
    ∧ calls (tick w1) = calls w1.
Proof.
  split; [discriminate |]. split; [reflexivity |].
  split; [vm_compute; reflexivity |].
  intros w1. split; [vm_compute; reflexivity |]. split; [| reflexivity].
  vm_compute. reflexivity.
Qed.

End Runs.

(** * Further properties of the token manager *)

Section Coverage.

Context {libs : Libraries} {libs_ok : LibrariesOk}.

(** ** What leaves the authentication step *)

(** X1: every exception that leaves [HTTPAuthMiddleware.__call__] is an
    HTTPException; one of another class raised by the validation leaves it
    as 401 "Authentication failed". *)
Theorem HTTPAuthMiddleware_call_raises_http_only env w creds :
  (∀ e w1, HTTPAuthMiddleware_call creds env w = (Raise e, w1) →
           isinstance_HTTPException e = true)
  ∧ (∀ c e w1, creds = Some c →
       validate_bearer_token (credentials c) env w = (Raise e, w1) →
       isinstance_HTTPException e = false →
       HTTPAuthMiddleware_call creds env w
       = (Raise (HTTPException 401 "Authentication failed"), w1)).
Proof.
  split.
  - destruct creds as [c |]; [| by intros e w1 [= <- _]].
    unfold HTTPAuthMiddleware_call. unfold_M.
    destruct (validate_bearer_token (credentials c) env w) as [[d | e0] w'].
    + destruct (get_location_from_token (credentials c) env w') as [[loc | e0] w''];
        [done |].
      destruct (isinstance_HTTPException e0) eqn:He0; intros e w1 [= <- _]; done.
    + destruct (isinstance_HTTPException e0) eqn:He0; intros e w1 [= <- _]; done.
  - intros c e w1 -> Hv He. unfold HTTPAuthMiddleware_call. unfold_M.
    by rewrite Hv, He.
Qed.

(** X2: when the validation endpoint answers 200 with a body that is JSON
    but not an object, [validate_bearer_token] raises a TypeError after
    reading the clock, stores nothing, and the middleware reports 401
    "Authentication failed". *)
Theorem validate_non_object_body env w T w0 r v :
  let req := validate_request (supabase_url (manager w)) T in
  check_token_cache T env w = (Return None, w0) →
  respond env (length (calls w)) req = Responds r →
  status_code r = 200 →
  response_json r = Return v →
  (∀ B, v ≠ JObj B) →
  ∃ msg,
    validate_bearer_token T env w
    = (Raise (OtherError "TypeError" msg), tick (sent req w0))
    ∧ manager (tick (sent req w0)) = manager w
    ∧ ∀ c, credentials c = T →
        HTTPAuthMiddleware_call (Some c) env w
        = (Raise (HTTPException 401 "Authentication failed"), tick (sent req w0)).
Proof.
  intros req Hc Hr Hs Hj Hv.
  pose proof (check_token_cache_frame _ _ _ _ _ Hc) as Hf.
  pose proof (check_frame_manager _ _ Hf) as Hm.
  assert (Hrun : ∃ msg, validate_bearer_token T env w
                        = (Raise (OtherError "TypeError" msg), tick (sent req w0))).
  { rewrite (validate_bearer_token_miss _ _ _ _ Hc).
    subst req. rewrite <- Hm, <- (check_frame_calls _ _ Hf) in Hr.
    unfold validate_via_supabase. unfold_M. simpl. rewrite Hr, Hs, Hj. simpl.
    rewrite Hm.
    destruct v as [| | | | | B]; simpl; eauto. by destruct (Hv B). }
  destruct Hrun as [msg Hrun]. exists msg.
  split; [done |]. split; [done |].
  intros c <-. unfold HTTPAuthMiddleware_call. unfold_M. by rewrite Hrun.
Qed.

(** ** Refreshing *)

(** X3: a cached validation whose stamp is not after the clock, equal
    included, is not used: the endpoint is asked, and its 200 answer
    replaces the entry with a new stamp of now + 5 minutes. *)
Theorem validate_refreshes_stale_entry env w T d t r B :
  let req := validate_request (supabase_url (manager w)) T in
  let d' := <["expires_at" :=
                JStr (isoformat (AwareDT (time_at env (S (clock_reads w)) + timedelta 5)))]> B in
  _token_cache (manager w) !! T = Some d →
  d !! "expires_at" = Some (JStr (isoformat (AwareDT t))) →
  t ≤ time_at env (clock_reads w) →
  respond env (length (calls w)) req = Responds r →
  status_code r = 200 →
  response_json r = Return (JObj B) →
  ∃ w1,
    validate_bearer_token T env w = (Return d', w1)
    ∧ calls w1 = (calls w ++ [req])%list
    ∧ _token_cache (manager w1) !! T = Some d'.
Proof.
  intros req d' Hl Hd Ht Hr Hs Hj.
  assert (Hc : check_token_cache T env w = (Return None, tick w)).
  { rewrite (check_token_cache_stamped _ _ _ _ _ Hl Hd).
    apply Z.ltb_ge in Ht. by rewrite Ht. }
  rewrite (validate_bearer_token_miss _ _ _ _ Hc).
  rewrite (validate_via_supabase_200 env (tick w) T r B Hr Hs Hj).
  eexists. split; [done |]. split; [done |]. simpl. by rewrite lookup_insert_eq.
Qed.

(** X4: a validation that returns has its payload in the cache under the
    token, whether it came from the cache or from the endpoint. *)
Theorem validate_result_is_cached env w T d w1 :
  validate_bearer_token T env w = (Return d, w1) →
  _token_cache (manager w1) !! T = Some d.
Proof.
  intros [Hhit | (w0 & Hmiss & Hnet)]%validate_bearer_token_inv.
  - by apply check_token_cache_hit in Hhit as (Hl & _ & ->).
  - destruct (validate_via_supabase_inv _ _ _ _ _ Hnet) as (r & B & Hr & Hs & Hj).
    rewrite (validate_via_supabase_200 _ _ _ _ _ Hr Hs Hj) in Hnet.
    injection Hnet as <- <-. simpl. by rewrite lookup_insert_eq.
Qed.

(** ** No eviction *)

Lemma validate_bearer_token_keeps_own_entry env w T r w1 :
  validate_bearer_token T env w = (r, w1) →
  is_Some (_token_cache (manager w) !! T) → is_Some (_token_cache (manager w1) !! T).
Proof.
  unfold validate_bearer_token. unfold_M.
  destruct (check_token_cache T env w) as [[[c |] | e] w0] eqn:Hc;
    pose proof (check_frame_manager _ _ (check_token_cache_frame _ _ _ _ _ Hc)) as Hm.
  - intros [= <- <-]. by rewrite Hm.
  - intros [[-> _] | (B & _ & ->)]%validate_via_supabase_cases; [by rewrite Hm |].
    simpl. rewrite lookup_insert_eq. eauto.
  - intros [= <- <-]. by rewrite Hm.
Qed.

(** X5: whatever its outcome, [validate_bearer_token] leaves the entries of
    all other tokens and the whole scoped-token cache as they were, never
    removes the entry of its own token, and posts at most one request, to
    the validation endpoint. *)
Theorem validate_touches_only_its_entry env w T r w1 :
  validate_bearer_token T env w = (r, w1) →
  (∀ T', T' ≠ T → _token_cache (manager w1) !! T' = _token_cache (manager w) !! T')
  ∧ (is_Some (_token_cache (manager w) !! T) → is_Some (_token_cache (manager w1) !! T))
  ∧ _location_token_cache (manager w1) = _location_token_cache (manager w)
  ∧ (calls w1 = calls w
     ∨ calls w1 = (calls w ++ [validate_request (supabase_url (manager w)) T])%list).
Proof.
  intros Hv. split; [| split; [| split]].
  - intros T' Hne. by apply (validate_bearer_token_keeps_other_tokens _ _ _ _ _ _ Hne Hv).
  - by apply (validate_bearer_token_keeps_own_entry _ _ _ _ _ Hv).
  - by apply (validate_bearer_token_keeps_location_tokens _ _ _ _ _ Hv).
  - revert Hv. unfold validate_bearer_token. unfold_M.
    destruct (check_token_cache T env w) as [[[c |] | e] w0] eqn:Hc;
      pose proof (check_token_cache_frame _ _ _ _ _ Hc) as Hf;
      pose proof (check_frame_manager _ _ Hf) as Hm;
      pose proof (check_frame_calls _ _ Hf) as Hcs.
    + intros [= <- <-]. by left.
    + intros [[_ Hp] | (B & _ & ->)]%validate_via_supabase_cases; right.
      * by rewrite Hp, Hm, Hcs.
      * simpl. by rewrite Hm, Hcs.
    + intros [= <- <-]. by left.
Qed.

Lemma get_location_token_keeps_own_entry env w T L r w1 :
  get_location_token T L env w = (r, w1) →
  is_Some (_location_token_cache (manager w) !! cache_key T L) →
  is_Some (_location_token_cache (manager w1) !! cache_key T L).
Proof.
  intros [-> | [entry ->]]%get_location_token_cases; [done |].
  simpl. rewrite lookup_insert_eq. eauto.
Qed.

Lemma get_location_token_calls env w T L r w1 :
  get_location_token T L env w = (r, w1) →
  calls w1 = calls w
  ∨ calls w1 = (calls w ++ [exchange_request (supabase_url (manager w)) T L])%list.
Proof.
  unfold get_location_token. unfold_M.
  destruct (check_location_token_cache T L env w) as [[[tok |] | e] w0] eqn:Hc;
    pose proof (check_location_token_cache_frame _ _ _ _ _ _ Hc) as Hf;
    pose proof (check_frame_manager _ _ Hf) as Hm;
    pose proof (check_frame_calls _ _ Hf) as Hcs.
  - intros [= <- <-]. by left.
  - intros Hx. right. pose proof (exchange_via_supabase_posts env w0 T L) as Hp.
    rewrite Hx in Hp. simpl in Hp. by rewrite Hp, Hm, Hcs.
  - intros [= <- <-]. by left.
Qed.

(** X6: whatever its outcome, [get_location_token] leaves the entries of
    all other keys and the whole validation cache as they were, never
    removes the entry of its own key, and posts at most one request, to the
    exchange endpoint. *)
Theorem get_location_token_touches_only_its_entry env w T L r w1 :
  get_location_token T L env w = (r, w1) →
  (∀ k, k ≠ cache_key T L →
        _location_token_cache (manager w1) !! k = _location_token_cache (manager w) !! k)
  ∧ (is_Some (_location_token_cache (manager w) !! cache_key T L) →
     is_Some (_location_token_cache (manager w1) !! cache_key T L))
  ∧ _token_cache (manager w1) = _token_cache (manager w)
  ∧ (calls w1 = calls w
     ∨ calls w1 = (calls w ++ [exchange_request (supabase_url (manager w)) T L])%list).
Proof.
  intros Hx. split; [| split; [| split]].
  - intros k Hk. by apply (get_location_token_keeps_other_keys _ _ _ _ _ _ _ Hk Hx).
  - by apply (get_location_token_keeps_own_entry _ _ _ _ _ _ Hx).
  - by apply (get_location_token_keeps_validations _ _ _ _ _ _ Hx).
  - by apply (get_location_token_calls _ _ _ _ _ _ Hx).
Qed.

(** ** The scoped-token cache as the code writes it *)

Lemma exchange_via_supabase_total env w T L :
  ∃ v w1,
    exchange_via_supabase T L env w = (Return v, w1)
    ∧ (manager w1 = manager w
       ∨ ∃ tok t, manager w1
                  = store_location_token (cache_key T L) (location_entry tok (AwareDT t))
                      (manager w)).
Proof.
  unfold exchange_via_supabase. unfold_M. simpl.
  destruct (respond env _ _) as [rsp | e]; [| eauto].
  destruct (status_code rsp =? 200); [| eauto].
  destruct (response_json rsp) as [v | e]; simpl; [| eauto].
  destruct (json_get v _ _) as [tok | e]; simpl; [| eauto].
  eexists _, _. split; [done |]. right. by eexists _, _.
Qed.

Lemma store_location_token_wf k tok t self :
  location_cache_wf self →
  location_cache_wf (store_location_token k (location_entry tok (AwareDT t)) self).
Proof.
  intros Hwf k' entry. unfold store_location_token. simpl.
  destruct (decide (k = k')) as [-> | Hne].
  - rewrite lookup_insert_eq. intros [= <-]. eauto.
  - rewrite lookup_insert_ne by done. apply Hwf.
Qed.

(** X7: a fresh manager has a well-formed scoped-token cache, validations
    keep it so, and on a well-formed cache [get_location_token] never
    raises and leaves the cache well-formed. *)
Theorem get_location_token_never_raises env w :
  (∀ u, location_cache_wf (TokenManager_init u))
  ∧ (∀ T r w1, location_cache_wf (manager w) →
       validate_bearer_token T env w = (r, w1) → location_cache_wf (manager w1))
  ∧ (∀ T L, location_cache_wf (manager w) →
       ∃ v w1, get_location_token T L env w = (Return v, w1)
               ∧ location_cache_wf (manager w1)).
Proof.
  split; [| split].
  - intros u k entry. unfold TokenManager_init. simpl. by rewrite lookup_empty.
  - intros T r w1 Hwf Hv k entry.
    rewrite (validate_bearer_token_keeps_location_tokens _ _ _ _ _ Hv). apply Hwf.
  - intros T L Hwf.
    assert (Hcheck : ∃ o w0, check_location_token_cache T L env w = (Return o, w0)).
    { destruct (_location_token_cache (manager w) !! cache_key T L) as [entry |] eqn:Hl.
      - destruct (Hwf _ _ Hl) as (tok & t & ->).
        rewrite (check_location_token_cache_entry _ _ _ _ _ _ Hl). eauto.
      - rewrite (check_location_token_cache_absent _ _ _ _ Hl). eauto. }
    destruct Hcheck as ([tok |] & w0 & Hc);
      pose proof (check_frame_manager _ _ (check_location_token_cache_frame _ _ _ _ _ _ Hc))
        as Hm.
    + rewrite (get_location_token_hit _ _ _ _ _ _ Hc). exists tok, w0.
      split; [done |]. by rewrite Hm.
    + rewrite (get_location_token_miss _ _ _ _ _ Hc).
      destruct (exchange_via_supabase_total env w0 T L) as (v & w1 & -> & Hcases).
      exists v, w1. split; [done |].
      destruct Hcases as [-> | (tok & t & ->)]; rewrite Hm; [done |].
      by apply store_location_token_wf.
Qed.

(** X8: the cache check of [get_location_token] is outside its try block:
    an entry whose non-empty stamp does not parse makes the call raise a
    ValueError, with no request posted and nothing changed. *)
Theorem get_location_token_unparsable_stamp env w T L entry s :
  _location_token_cache (manager w) !! cache_key T L = Some entry →
  entry !! "expires_at" = Some (JStr s) →
  s ≠ "" →
  fromisoformat s = None →
  ∃ msg, get_location_token T L env w = (Raise (OtherError "ValueError" msg), w).
Proof.
  intros Hl He Hs Hp. unfold get_location_token, check_location_token_cache. unfold_M.
  rewrite Hl. unfold dict_get. rewrite He. simpl.
  unfold unexpired. simpl. rewrite bool_decide_eq_false_2 by done. unfold_M. simpl.
  rewrite Hp. eauto.
Qed.

(** X9: a 200 answer whose JSON object has no "access_token" makes
    [get_location_token] return the bearer token and store it as the scoped
    token with the stamp of now + 30 minutes, so that later calls before
    that time return the bearer token without asking the endpoint again. *)
Theorem get_location_token_caches_bearer_fallback env w T L w0 r B :
  let req := exchange_request (supabase_url (manager w)) T L in
  let expires := AwareDT (time_at env (clock_reads w0) + timedelta 30) in
  check_location_token_cache T L env w = (Return None, w0) →
  respond env (length (calls w)) req = Responds r →
  status_code r = 200 →
  response_json r = Return (JObj B) →
  B !! "access_token" = None →
  ∃ w1,
    get_location_token T L env w = (Return (JStr T), w1)
    ∧ _location_token_cache (manager w1) !! cache_key T L
      = Some (location_entry (JStr T) expires)
    ∧ ∀ w2,
        _location_token_cache (manager w2) !! cache_key T L
          = _location_token_cache (manager w1) !! cache_key T L →
        time_at env (clock_reads w2) < time_at env (clock_reads w0) + timedelta 30 →
        get_location_token T L env w2 = (Return (JStr T), tick w2).
Proof.
  intros req expires Hc Hr Hs Hj Htok.
  pose proof (check_location_token_cache_frame _ _ _ _ _ _ Hc) as Hf.
  pose proof (check_frame_manager _ _ Hf) as Hm.
  rewrite (get_location_token_miss _ _ _ _ _ Hc).
  subst req. rewrite <- Hm, <- (check_frame_calls _ _ Hf) in Hr.
  rewrite (exchange_via_supabase_200 _ _ _ _ _ _ Hr Hs Hj).
  unfold dict_get_default. rewrite Htok. simpl.
  eexists. split; [done |]. simpl. rewrite lookup_insert_eq.
  split; [done |].
  intros w2 Hcache Hlt.
  apply get_location_token_hit.
  rewrite (check_location_token_cache_entry _ _ _ _ _ _ Hcache).
  apply Z.ltb_lt in Hlt. by rewrite Hlt.
Qed.

(** X10: a scoped token whose stamp is not after the clock, equal included,
    is not returned: the exchange is made again, and its 200 answer
    replaces the entry with the new token and a stamp of now + 30
    minutes. *)
Theorem get_location_token_refreshes_stale_entry env w T L old t r B tok :
  let req := exchange_request (supabase_url (manager w)) T L in
  let expires := AwareDT (time_at env (S (clock_reads w)) + timedelta 30) in
  _location_token_cache (manager w) !! cache_key T L = Some (location_entry old (AwareDT t)) →
  t ≤ time_at env (clock_reads w) →
  respond env (length (calls w)) req = Responds r →
  status_code r = 200 →
  response_json r = Return (JObj B) →
  B !! "access_token" = Some tok →
  ∃ w1,
    get_location_token T L env w = (Return tok, w1)
    ∧ calls w1 = (calls w ++ [req])%list
    ∧ _location_token_cache (manager w1) !! cache_key T L
      = Some (location_entry tok expires).
Proof.
  intros req expires Hl Ht Hr Hs Hj Htok.
  assert (Hc : check_location_token_cache T L env w = (Return None, tick w)).
  { rewrite (check_location_token_cache_entry _ _ _ _ _ _ Hl).
    apply Z.ltb_ge in Ht. by rewrite Ht. }
  rewrite (get_location_token_miss _ _ _ _ _ Hc).
  rewrite (exchange_via_supabase_200 env (tick w) T L r B Hr Hs Hj).
  unfold dict_get_default. rewrite Htok. simpl.
  eexists. split; [done |]. split; [done |]. simpl. by rewrite lookup_insert_eq.
Qed.

(** ** One round trip per authentication *)

(** X11: authenticating a token that is not cached and that the endpoint
    accepts posts exactly one request when less than 5 minutes pass between
    the two clock reads: the validation inside the location resolver is
    served from the entry the first validation stored. *)
Theorem authenticate_fresh_token_posts_once env w request c :
  let T := credentials c in
  let req := validate_request (supabase_url (manager w)) T in
  _token_cache (manager w) !! T = None →
  accepts env req →
  time_at env (S (clock_reads w)) < time_at env (clock_reads w) + timedelta 5 →
  ∃ loc request' w1,
    MCPAuthDependency_call request (Some c) env w = (Return ((loc, T), request'), w1)
    ∧ calls w1 = (calls w ++ [req])%list
    ∧ is_Some (_token_cache (manager w1) !! T).
Proof.
  intros T req Hl Hacc Htime.
  destruct (Hacc (length (calls w))) as (r & B & Hr & Hs & Hj).
  pose proof (check_token_cache_absent env w T Hl) as Hc.
  pose proof (validate_bearer_token_miss _ _ _ _ Hc) as Hv1.
  rewrite (validate_via_supabase_200 _ _ _ _ _ Hr Hs Hj) in Hv1.
  set (d := <["expires_at" :=
                JStr (isoformat (AwareDT (time_at env (clock_reads w) + timedelta 5)))]> B)
    in Hv1.
  set (w' := with_manager (store_validation T d (manager w))
               (tick (sent (validate_request (supabase_url (manager w)) T) w))) in Hv1.
  assert (Hv2 : validate_bearer_token T env w' = (Return d, tick w')).
  { apply validate_bearer_token_hit.
    erewrite (check_token_cache_stamped env w' T d);
      [| subst w'; simpl; apply lookup_insert_eq | subst d; apply lookup_insert_eq].
    subst w'. simpl. apply Z.ltb_lt in Htime. by rewrite Htime. }
  pose proof (get_location_from_token_returns _ _ _ _ _ Hv2) as Hloc.
  eexists _, _, (tick w'). split; [| split].
  - unfold MCPAuthDependency_call, HTTPAuthMiddleware_call. unfold_M.
    fold T. rewrite Hv1, Hloc. reflexivity.
  - done.
  - subst w'. simpl. rewrite lookup_insert_eq. eauto.
Qed.

(** ** Without credentials *)

(** X22: when no credentials are passed in and the security scheme gives
    none, [MCPAuthDependency.__call__] raises 401 "Missing authorization";
    when the scheme raises, that exception leaves the call; in both cases
    nothing is posted and the manager is left as it was. *)
Theorem authenticate_without_credentials env w request creds :
  (∀ c, effective_credentials request creds ≠ Return (Some c)) →
  ∃ e,
    MCPAuthDependency_call request creds env w = (Raise e, w)
    ∧ (effective_credentials request creds = Return None →
       e = HTTPException 401 "Missing authorization")
    ∧ (∀ e', effective_credentials request creds = Raise e' → e = e').
Proof.
  intros Hnone. unfold MCPAuthDependency_call. unfold_M.
  unfold effective_credentials in *.
  destruct creds as [c |]; [by destruct (Hnone c) |].
  destruct (security request) as [[c |] | e0].
  - by destruct (Hnone c).
  - eexists. split; [done |]. split; [done | by intros e' [=]].
  - eexists. split; [done |]. split; [by intros [=] | by intros e' [= <-]].
Qed.

(** ** The validation cache as the code writes it *)

Lemma HTTPAuthMiddleware_call_wf env w creds r w1 :
  token_cache_wf (manager w) →
  HTTPAuthMiddleware_call creds env w = (r, w1) →
  token_cache_wf (manager w1).
Proof.
  intros Hwf. destruct creds as [c |]; [| by intros [= _ <-]].
  unfold HTTPAuthMiddleware_call, get_location_from_token. unfold_M.
  destruct (validate_bearer_token (credentials c) env w) as [[d | e] w'] eqn:Hv1;
    pose proof (validate_bearer_token_wf _ _ _ _ _ Hwf Hv1) as Hwf'.
  - destruct (validate_bearer_token (credentials c) env w') as [[d' | e] w''] eqn:Hv2;
      pose proof (validate_bearer_token_wf _ _ _ _ _ Hwf' Hv2) as Hwf''.
    + destruct (jwt_decode (credentials c)) as [claims | e]; [| by intros [= _ <-]].
      by destruct (truthy (dict_get claims "locationId")); intros [= _ <-].
    + by destruct (isinstance_HTTPException e); intros [= _ <-].
  - by destruct (isinstance_HTTPException e); intros [= _ <-].
Qed.

(** X23: a fresh manager has a well-formed validation cache, and
    [validate_bearer_token], [get_location_token] and
    [MCPAuthDependency.__call__] keep it well-formed; on such a cache the
    cache check cannot fail, so a validation that raises has posted its
    request first. *)
Theorem token_cache_wf_invariant env w :
  (∀ u, token_cache_wf (TokenManager_init u))
  ∧ (token_cache_wf (manager w) →
     (∀ T r w1, validate_bearer_token T env w = (r, w1) → token_cache_wf (manager w1))
     ∧ (∀ T L r w1, get_location_token T L env w = (r, w1) →
                    token_cache_wf (manager w1))
     ∧ (∀ request creds r w1, MCPAuthDependency_call request creds env w = (r, w1) →
                              token_cache_wf (manager w1))
     ∧ (∀ T e w1, validate_bearer_token T env w = (Raise e, w1) →
          calls w1 = (calls w ++ [validate_request (supabase_url (manager w)) T])%list)).
Proof.
  split.
  { intros u T d. unfold TokenManager_init. simpl. by rewrite lookup_empty. }
  intros Hwf. split; [| split; [| split]].
  - intros T r w1. by apply validate_bearer_token_wf.
  - intros T L r w1 Hx T' d.
    rewrite (get_location_token_keeps_validations _ _ _ _ _ _ Hx). apply Hwf.
  - intros request creds r w1. unfold MCPAuthDependency_call. unfold_M.
    assert (Hmid : ∀ c r' w', HTTPAuthMiddleware_call (Some c) env w = (r', w') →
                              token_cache_wf (manager w'))
      by (intros c r' w'; by apply HTTPAuthMiddleware_call_wf).
    destruct creds as [c |]; [| destruct (security request) as [[c |] | e]];
      try (by intros [= _ <-]);
      destruct (HTTPAuthMiddleware_call (Some c) env w) as [[loc | e] w'] eqn:Ha;
      apply Hmid in Ha; by intros [= _ <-].
  - intros T e w1.
    destruct (_token_cache (manager w) !! T) as [cached |] eqn:Hl.
    + destruct (Hwf _ _ Hl) as [t Ht].
      pose proof (check_token_cache_stamped env w T cached t Hl Ht) as Hc.
      destruct (time_at env (clock_reads w) <? t).
      * by rewrite (validate_bearer_token_hit _ _ _ _ _ Hc).
      * rewrite (validate_bearer_token_miss _ _ _ _ Hc).
        intros [[_ Hp] | (B & [=] & _)]%validate_via_supabase_cases. exact Hp.
    + pose proof (check_token_cache_absent env w T Hl) as Hc.
      rewrite (validate_bearer_token_miss _ _ _ _ Hc).
      intros [[_ Hp] | (B & [=] & _)]%validate_via_supabase_cases. exact Hp.
Qed.

End Coverage.

(** * Properties of the server module *)

Ltac unfold_SM :=
  unfold mbind, SM_bind, mret, SM_ret, sm_bind, sm_ret, sm_raise, sm_outcome, sm_try,
    get_server, set_ghl_clients, set_tools in *.

Section ServerProperties.

Context {libs : Libraries} {server_libs : ServerLibraries} {server_ok : ServerLibrariesOk}.

(** ** Ordered dictionaries *)

Lemma od_lookup_set_eq {V} k (v : V) d : od_lookup k (od_set k v d) = Some v.
Proof.
  induction d as [| [k' v'] d IH]; simpl.
  - by rewrite String.eqb_refl.
  - destruct (String.eqb k' k) eqn:E; simpl; by rewrite E.
Qed.

Lemma od_lookup_set_ne {V} k k' (v : V) d :
  k ≠ k' → od_lookup k' (od_set k v d) = od_lookup k' d.
Proof.
  intros Hne. induction d as [| [k0 v0] d IH]; simpl.
  - apply String.eqb_neq in Hne. by rewrite Hne.
  - destruct (String.eqb k0 k) eqn:E; simpl; [| by rewrite IH].
    apply String.eqb_eq in E as ->.
    apply String.eqb_neq in Hne. by rewrite Hne.
Qed.

Lemma od_lookup_None_keys {V} k (d : list (string * V)) :
  od_lookup k d = None ↔ k ∉ d.*1.
Proof.
  induction d as [| [k' v'] d IH]; simpl.
  - split; [intros _; apply not_elem_of_nil | done].
  - rewrite not_elem_of_cons. destruct (String.eqb k' k) eqn:E.
    + apply String.eqb_eq in E as ->. split; [done | by intros [? _]].
    + apply String.eqb_neq in E. rewrite IH.
      split; [intros ?; split; [by intros -> | done] | by intros [_ ?]].
Qed.

Lemma od_set_keys {V} k (v : V) d :
  (od_set k v d).*1
  = match od_lookup k d with
    | Some _ => d.*1
    | None => (d.*1 ++ [k])%list
    end.
Proof.
  induction d as [| [k' v'] d IH]; [done |].
  cbn [od_set od_lookup]. destruct (String.eqb k' k); [done |].
  rewrite !fmap_cons, IH. by destruct (od_lookup k d).
Qed.

Lemma od_set_NoDup {V} k (v : V) d : NoDup d.*1 → NoDup (od_set k v d).*1.
Proof.
  intros Hnd. rewrite od_set_keys.
  destruct (od_lookup k d) eqn:El; [done |].
  apply NoDup_app. split; [done |]. split; [| apply NoDup_singleton].
  intros x Hx ->%list_elem_of_singleton. by apply od_lookup_None_keys in El.
Qed.

(** ** The client cache *)

Lemma get_ghl_client_run env s loc tok :
  get_ghl_client loc tok env s
  = match ghl_clients s !! client_cache_key loc tok with
    | Some client => (Return client, s)
    | None =>
        let client := GoHighLevelClient {| token := tok; location_id := loc |} in
        (Return client,
         {| token_world := token_world s;
            ghl_clients := <[client_cache_key loc tok := client]> (ghl_clients s);
            tools := tools s |})
    end.
Proof.
  unfold get_ghl_client. unfold_SM.
  destruct (ghl_clients s !! client_cache_key loc tok) as [c |] eqn:El; simpl.
  - by rewrite El.
  - by rewrite lookup_insert_eq.
Qed.

(** X12: [get_ghl_client] never raises; it returns the client stored under
    its key afterwards, builds one around the given token and location only
    when the key was free, and otherwise returns the stored client and
    changes nothing; the clients under other keys, the registry and the
    token manager's world are left alone. *)
Theorem get_ghl_client_caches env s loc tok :
  ∃ client s',
    get_ghl_client loc tok env s = (Return client, s')
    ∧ ghl_clients s' !! client_cache_key loc tok = Some client
    ∧ (∀ k, k ≠ client_cache_key loc tok → ghl_clients s' !! k = ghl_clients s !! k)
    ∧ token_world s' = token_world s
    ∧ tools s' = tools s
    ∧ (∀ c0, ghl_clients s !! client_cache_key loc tok = Some c0 → client = c0 ∧ s' = s)
    ∧ (ghl_clients s !! client_cache_key loc tok = None →
       client = GoHighLevelClient {| token := tok; location_id := loc |}).
Proof.
  rewrite get_ghl_client_run.
  destruct (ghl_clients s !! client_cache_key loc tok) as [c |] eqn:El.
  - exists c, s. split; [done |]. split; [done |]. split; [done |].
    split; [done |]. split; [done |]. split; [| done].
    by intros c0 [= ->].
  - eexists _, _. split; [done |]. simpl. rewrite lookup_insert_eq.
    split; [done |]. split; [by intros k Hk; rewrite lookup_insert_ne |].
    split; [done |]. split; [done |]. split; done.
Qed.

(** X13: the key holds only the first 10 characters of the token: after a
    client was built for [tok] at a location, a request with any token that
    shares those characters gets, at that location, the client built around
    [tok]. *)
Theorem get_ghl_client_shares_by_prefix env s loc tok tok' :
  str_take 10 tok = str_take 10 tok' →
  ghl_clients s !! client_cache_key loc tok = None →
  ∃ s1,
    get_ghl_client loc tok env s
    = (Return (GoHighLevelClient {| token := tok; location_id := loc |}), s1)
    ∧ get_ghl_client loc tok' env s1
      = (Return (GoHighLevelClient {| token := tok; location_id := loc |}), s1).
Proof.
  intros Hpre Hfree. rewrite !get_ghl_client_run, Hfree. simpl.
  eexists. split; [done |].
  rewrite get_ghl_client_run. simpl.
  unfold client_cache_key. rewrite <- Hpre. by rewrite lookup_insert_eq.
Qed.

(** X14: [call_tool] raises ValueError "Tool <name> not found" for a name
    that is not registered, without building a client; for a registered
    name it runs the tool with the client stored under the key of the
    location and token, so that with a client already stored there the
    token passed in plays no part. *)
Theorem call_tool_uses_cached_client env s name params loc tok :
  (od_lookup name (tools s) = None →
   call_tool name params loc tok env s
   = (Raise (OtherError "ValueError" ("Tool " +:+ name +:+ " not found")), s))
  ∧ (∀ tool c0,
       od_lookup name (tools s) = Some tool →
       ghl_clients s !! client_cache_key loc tok = Some c0 →
       call_tool name params loc tok env s
       = in_world (func tool c0 params loc) env s).
Proof.
  split.
  - intros Hl. unfold call_tool. unfold_SM. by rewrite Hl.
  - intros tool c0 Hl Hc. unfold call_tool. unfold_SM. rewrite Hl.
    fold (@mbind SM _). unfold mbind, SM_bind, sm_bind.
    by rewrite get_ghl_client_run, Hc.
Qed.

(** ** The registry *)

(** X15: [register] stores the tool under its name and leaves the other
    tools as they are; a new name goes to the end of the registry and a name
    that is present keeps its place, so that names stay without duplicates;
    the client cache and the token manager's world are not touched. *)
Theorem register_stores_tool env s name f desc schema :
  ∃ s',
    register name f desc schema env s = (Return tt, s')
    ∧ od_lookup name (tools s')
      = Some {| func := f; description := desc; params_schema := schema |}
    ∧ (∀ k, k ≠ name → od_lookup k (tools s') = od_lookup k (tools s))
    ∧ (tools s').*1 = match od_lookup name (tools s) with
                      | Some _ => (tools s).*1
                      | None => ((tools s).*1 ++ [name])%list
                      end
    ∧ (NoDup (tools s).*1 → NoDup (tools s').*1)
    ∧ ghl_clients s' = ghl_clients s
    ∧ token_world s' = token_world s.
Proof.
  eexists. split; [reflexivity |]. simpl.
  split; [apply od_lookup_set_eq |].
  split; [intros k Hk; by apply od_lookup_set_ne |].
  split; [apply od_set_keys |].
  split; [apply od_set_NoDup | done].
Qed.

(** ** The protocol handler *)

Lemma call_tool_tools env s name params loc tok r s' :
  call_tool name params loc tok env s = (r, s') → tools s' = tools s.
Proof.
  unfold call_tool. unfold_SM.
  destruct (od_lookup name (tools s)) as [tool |]; [| by intros [= _ <-]].
  fold (@mbind SM _). unfold mbind, SM_bind, sm_bind.
  rewrite get_ghl_client_run.
  destruct (ghl_clients s !! client_cache_key loc tok) as [c |]; simpl;
    unfold in_world; simpl;
    destruct (func tool _ params loc env (token_world s)) as [r0 w0];
    by intros [= _ <-].
Qed.

Lemma handle_tools_call_run env s params loc tok :
  handle_tools_call params loc tok env s
  = match params_get params "name" JNull with
    | Raise e => (Raise e, s)
    | Return tool_name =>
        match params_get params "arguments" (JObj ∅) with
        | Raise e => (Raise e, s)
        | Return tool_args =>
            match registered tool_name (tools s) with
            | Raise e => (Raise e, s)
            | Return None =>
                (Raise (OtherError "ValueError"
                          ("Tool " +:+ format_value tool_name +:+ " not found")), s)
            | Return (Some name) =>
                match call_tool name tool_args loc tok env s with
                | (Return result, s') =>
                    match json_dumps result with
                    | Return dumped =>
                        (Return {[ "content" :=
                                     JArr [JObj {[ "type" := JStr "text";
                                                   "text" := JStr dumped ]}] ]}, s')
                    | Raise e =>
                        (Return {[ "error" :=
                                     JObj {[ "code" := JStr "TOOL_ERROR";
                                             "message" := JStr (exception_str e) ]} ]},
                         s')
                    end
                | (Raise e, s') =>
                    (Return {[ "error" :=
                                 JObj {[ "code" := JStr "TOOL_ERROR";
                                         "message" := JStr (exception_str e) ]} ]}, s')
                end
            end
        end
    end.
Proof.
  unfold handle_tools_call. unfold_SM.
  destruct (params_get params "name" JNull) as [tool_name | e]; [| done].
  destruct (params_get params "arguments" (JObj ∅)) as [tool_args | e]; [| done].
  destruct (registered tool_name (tools s)) as [[name |] | e]; try done.
  fold (@mbind SM _). unfold mbind, SM_bind, sm_bind.
  destruct (call_tool name tool_args loc tok env s) as [[result | e] s']; [| done].
  by destruct (json_dumps result).
Qed.

Lemma handle_tools_call_tools env s params loc tok r s' :
  handle_tools_call params loc tok env s = (r, s') → tools s' = tools s.
Proof.
  rewrite handle_tools_call_run.
  destruct (params_get params "name" JNull) as [tool_name | e]; [| by intros [= _ <-]].
  destruct (params_get params "arguments" (JObj ∅)) as [tool_args | e];
    [| by intros [= _ <-]].
  destruct (registered tool_name (tools s)) as [[name |] | e];
    try by intros [= _ <-].
  destruct (call_tool name tool_args loc tok env s) as [[result | e] s0] eqn:Hc;
    apply call_tool_tools in Hc; [destruct (json_dumps result) |];
    by intros [= _ <-].
Qed.

Lemma process_message_run env s message loc tok :
  process_message message loc tok env s
  = match route (dict_get message "method")
            (dict_get_default message "params" (JObj ∅)) loc tok env s with
    | (Return result, s') =>
        (Return {[ "jsonrpc" := JStr "2.0"; "id" := dict_get message "id";
                   "result" := JObj result ]}, s')
    | (Raise e, s') =>
        (Return {[ "jsonrpc" := JStr "2.0"; "id" := dict_get message "id";
                   "error" := JObj {[ "code" := JNum (-32603);
                                      "message" := JStr (exception_str e) ]} ]}, s')
    end.
Proof.
  unfold process_message. unfold_SM.
  by destruct (route _ _ loc tok env s) as [[result | e] s'].
Qed.

Lemma route_tools env s method params loc tok r s' :
  route method params loc tok env s = (r, s') → tools s' = tools s.
Proof.
  unfold route.
  destruct (is_method method "initialize"); [by intros [= _ <-] |].
  destruct (is_method method "tools/list"); [by intros [= _ <-] |].
  destruct (is_method method "tools/call");
    [apply handle_tools_call_tools | by intros [= _ <-]].
Qed.

(** X16: [process_message] never raises.  Its answer carries "jsonrpc"
    "2.0" and the "id" of the message (null when there is none), and either
    a "result" and no "error", or no "result" and an "error" with code
    -32603; the registry is the same afterwards. *)
Theorem process_message_always_answers env s message loc tok :
  ∃ body s',
    process_message message loc tok env s = (Return body, s')
    ∧ body !! "jsonrpc" = Some (JStr "2.0")
    ∧ body !! "id" = Some (dict_get message "id")
    ∧ ((is_Some (body !! "result") ∧ body !! "error" = None)
       ∨ (body !! "result" = None
          ∧ ∃ msg, body !! "error"
                   = Some (JObj {[ "code" := JNum (-32603); "message" := JStr msg ]})))
    ∧ tools s' = tools s.
Proof.
  rewrite process_message_run.
  destruct (route _ _ loc tok env s) as [[result | e] s'] eqn:Hroute;
    apply route_tools in Hroute.
  - eexists _, _. split; [done |]. split; [done |]. split; [done |].
    split; [left; split; [eauto | done] | done].
  - eexists _, _. split; [done |]. split; [done |]. split; [done |].
    split; [right; split; [done | eauto] | done].
Qed.

Lemma is_method_str m s0 : is_method (JStr m) s0 = bool_decide (m = s0).
Proof.
  simpl. destruct (String.eqb_spec m s0) as [-> | Hne].
  - by rewrite bool_decide_eq_true_2.
  - by rewrite bool_decide_eq_false_2.
Qed.

Lemma route_tools_call params loc tok :
  route (JStr "tools/call") params loc tok = handle_tools_call params loc tok.
Proof. reflexivity. Qed.

Lemma route_tools_list params loc tok :
  route (JStr "tools/list") params loc tok = handle_tools_list params.
Proof. reflexivity. Qed.

(** X17: a message whose "method" is a string other than "initialize",
    "tools/list" and "tools/call" is answered with the error -32603
    "Unknown method: <method>", and nothing changes; a message without
    "method" is answered in the same way, with the text an f-string gives
    for None. *)
Theorem process_message_unknown_method env s message loc tok :
  (∀ m, message !! "method" = Some (JStr m) →
        m ≠ "initialize" → m ≠ "tools/list" → m ≠ "tools/call" →
        process_message message loc tok env s
        = (Return {[ "jsonrpc" := JStr "2.0"; "id" := dict_get message "id";
                     "error" := JObj {[ "code" := JNum (-32603);
                                        "message" := JStr ("Unknown method: " +:+ m) ]} ]},
           s))
  ∧ (message !! "method" = None →
     process_message message loc tok env s
     = (Return {[ "jsonrpc" := JStr "2.0"; "id" := dict_get message "id";
                  "error" := JObj {[ "code" := JNum (-32603);
                                     "message" :=
                                       JStr ("Unknown method: " +:+ format_value JNull) ]} ]},
        s)).
Proof.
  split.
  - intros m Hm H1 H2 H3. rewrite process_message_run.
    unfold dict_get at 1. rewrite Hm. simpl default. unfold route.
    rewrite !is_method_str, !bool_decide_eq_false_2 by done.
    unfold sm_raise. by rewrite exception_str_ValueError, format_value_str.
  - intros Hm. rewrite process_message_run.
    unfold dict_get at 1. rewrite Hm. simpl default. unfold route. simpl.
    unfold sm_raise. by rewrite exception_str_ValueError.
Qed.

(** X18: "tools/list" is answered with one entry per registered tool, in
    the order of the registry, giving its name, description and schema; no
    tool is run and nothing changes. *)
Theorem process_message_tools_list env s message loc tok :
  message !! "method" = Some (JStr "tools/list") →
  ∃ listing,
    process_message message loc tok env s
    = (Return {[ "jsonrpc" := JStr "2.0"; "id" := dict_get message "id";
                 "result" := JObj {[ "tools" := JArr listing ]} ]}, s)
    ∧ length listing = length (tools s)
    ∧ ∀ (i : nat) name tool,
        tools s !! i = Some (name, tool) →
        listing !! i
        = Some (JObj {[ "name" := JStr name;
                        "description" := JStr (description tool);
                        "inputSchema" := params_schema tool ]}).
Proof.
  intros Hm. exists (tool_listing <$> tools s). split; [| split].
  - rewrite process_message_run. unfold dict_get at 1. rewrite Hm. simpl default.
    by rewrite route_tools_list.
  - by rewrite length_fmap.
  - intros i name tool Hi. rewrite list_lookup_fmap, Hi. done.
Qed.

(** X19: "tools/call" for a name that is not registered is answered with
    the error -32603 "Tool <name> not found"; no client is built and
    nothing changes. *)
Theorem process_message_unknown_tool env s message loc tok p n :
  message !! "method" = Some (JStr "tools/call") →
  message !! "params" = Some (JObj p) →
  p !! "name" = Some (JStr n) →
  od_lookup n (tools s) = None →
  process_message message loc tok env s
  = (Return {[ "jsonrpc" := JStr "2.0"; "id" := dict_get message "id";
               "error" := JObj {[ "code" := JNum (-32603);
                                  "message" := JStr ("Tool " +:+ n +:+ " not found") ]} ]},
     s).
Proof.
  intros Hm Hp Hn Hl. rewrite process_message_run.
  unfold dict_get at 1. unfold dict_get_default. rewrite Hm, Hp. simpl default.
  rewrite route_tools_call, handle_tools_call_run. simpl params_get.
  unfold dict_get_default. rewrite Hn. simpl. rewrite Hl.
  by rewrite exception_str_ValueError, format_value_str.
Qed.

(** X20: "tools/call" for a registered tool runs it with the client of
    the location and token and the "arguments" of the call (an empty object
    when there are none).  When the tool returns an object that
    [json.dumps] accepts, the answer is a "result" with one text content,
    the dump; when the tool returns an object that [json.dumps] rejects, or
    when the tool raises, the answer is a "result" too, holding an "error"
    with code "TOOL_ERROR" and the text of the exception. *)
Theorem process_message_tool_outcome env s message loc tok p n tool client s1 :
  message !! "method" = Some (JStr "tools/call") →
  message !! "params" = Some (JObj p) →
  p !! "name" = Some (JStr n) →
  od_lookup n (tools s) = Some tool →
  get_ghl_client loc tok env s = (Return client, s1) →
  process_message message loc tok env s
  = match func tool client (dict_get_default p "arguments" (JObj ∅)) loc env
            (token_world s) with
    | (r, w') =>
        let tool_error e : gmap string json :=
          {[ "error" := JObj {[ "code" := JStr "TOOL_ERROR";
                                "message" := JStr (exception_str e) ]} ]} in
        (Return {[ "jsonrpc" := JStr "2.0"; "id" := dict_get message "id";
                   "result" :=
                     JObj match r with
                          | Return v =>
                              match json_dumps v with
                              | Return dumped =>
                                  {[ "content" :=
                                       JArr [JObj {[ "type" := JStr "text";
                                                     "text" := JStr dumped ]}] ]}
                              | Raise e => tool_error e
                              end
                          | Raise e => tool_error e
                          end ]},
         {| token_world := w'; ghl_clients := ghl_clients s1; tools := tools s |})
    end.
Proof.
  intros Hm Hp Hn Hl Hc. rewrite process_message_run.
  unfold dict_get at 1. unfold dict_get_default at 1. rewrite Hm, Hp. simpl default.
  rewrite route_tools_call, handle_tools_call_run. simpl params_get.
  unfold dict_get_default at 1. rewrite Hn. simpl. rewrite Hl.
  unfold call_tool. unfold_SM. rewrite Hl.
  fold (@mbind SM _). unfold mbind, SM_bind, sm_bind. rewrite Hc.
  pose proof (get_ghl_client_caches env s loc tok) as (c' & s' & Hc' & _ & _ & Hw & Ht & _).
  rewrite Hc in Hc'. injection Hc' as <- <-.
  unfold in_world. rewrite Hw, Ht.
  destruct (func tool client _ loc env (token_world s)) as [[v | e] w']; [| done].
  by destruct (json_dumps v).
Qed.

(** ** The authorization redirect *)

(** X21: [oauth_authorize] answers 302 with the same URL in the body and in
    the Location header.  The query always holds client_id, redirect_uri,
    response_type, state and scope, the scope being "ghl.full" when none or
    an empty one is given; code_challenge and code_challenge_method are
    there exactly when a non-empty challenge is given, the method being
    "S256" when none or an empty one is given. *)
Theorem oauth_authorize_redirects client_id redirect_uri response_type state0
    scope code_challenge code_challenge_method :
  let resp := oauth_authorize client_id redirect_uri response_type state0
                scope code_challenge code_challenge_method in
  let params := oauth_authorize_params client_id redirect_uri response_type state0
                  scope code_challenge code_challenge_method in
  let pkce := match code_challenge with
              | Some c => negb (bool_decide (c = ""))
              | None => false
              end in
  response_status resp = 302
  ∧ (∃ url, content resp = JObj {[ "redirect" := JStr url ]}
            ∧ response_headers resp = [("Location", url)]
            ∧ url = "https://basicmachines.co/oauth/gohighlevel" +:+ "?" +:+ urlencode params)
  ∧ od_lookup "client_id" params = Some client_id
  ∧ od_lookup "redirect_uri" params = Some redirect_uri
  ∧ od_lookup "response_type" params = Some response_type
  ∧ od_lookup "state" params = Some state0
  ∧ od_lookup "scope" params = Some (str_or scope "ghl.full")
  ∧ od_lookup "code_challenge" params = (if pkce then code_challenge else None)
  ∧ od_lookup "code_challenge_method" params
    = (if pkce then Some (str_or code_challenge_method "S256") else None)
  ∧ length params = (if pkce then 7 else 5)%nat.
Proof.
  intros resp params pkce. split; [done |]. split; [by eexists |].
  subst params pkce. unfold oauth_authorize_params.
  destruct code_challenge as [c |]; [| by repeat split].
  destruct (bool_decide (c = "")); by repeat split.
Qed.

End ServerProperties.

(** * The further properties on the concrete outside *)

Module CoverageRuns.
Import Scenario ScenarioFacts ServerScenario CoverageScenario.

#[export] Instance server_libraries_ok : @ServerLibrariesOk server_libraries.
Proof. by split. Qed.

Lemma HTTPAuthMiddleware_call_raises_http_only_run :
  (HTTPAuthMiddleware_call (Some {| scheme := "Bearer"; credentials := "listy" |})
     odd_env start).1
  = Raise (HTTPException 401 "Authentication failed").
Proof.
  destruct (HTTPAuthMiddleware_call_raises_http_only odd_env start
              (Some {| scheme := "Bearer"; credentials := "listy" |})) as [_ Hother].
  pose (w1 := (validate_bearer_token "listy" odd_env start).2).
  assert (Hv : validate_bearer_token "listy" odd_env start
               = (Raise (OtherError "TypeError"
                           "list indices must be integers or slices, not str"), w1))
    by (vm_compute; reflexivity).
  by rewrite (Hother _ _ w1 eq_refl Hv eq_refl).
Defined.

Lemma validate_non_object_body_run :
  ∃ msg w1, validate_bearer_token "listy" odd_env start
            = (Raise (OtherError "TypeError" msg), w1)
            ∧ manager w1 = manager start.
Proof.
  destruct (validate_non_object_body odd_env start "listy" start
              {| status_code := 200; text := "[]"; response_json := Return (JArr []) |}
              (JArr [])) as (msg & Hrun & Hm & _); try reflexivity.
  - by intros B.
  - by eexists _, _.
Defined.

Lemma validate_refreshes_stale_entry_run :
  ∃ d' w1, validate_bearer_token "abc" env stale = (Return d', w1)
           ∧ length (calls w1) = 1%nat
           ∧ _token_cache (manager w1) !! "abc" = Some d'
           ∧ d' !! "expires_at" = Some (JStr (isoformat (AwareDT (1000000 + timedelta 5)))).
Proof.
  destruct (validate_refreshes_stale_entry env stale "abc" stale_validation 0
              (ok identity) identity) as (w1 & Hrun & Hcalls & Hcache);
    try reflexivity.
  eexists _, w1. split; [exact Hrun |]. split; [by rewrite Hcalls |].
  split; [exact Hcache |]. apply lookup_insert_eq.
Defined.

Lemma validate_result_is_cached_run :
  let run := validate_bearer_token "abc" env start in
  ∃ d, run.1 = Return d ∧ _token_cache (manager run.2) !! "abc" = Some d.
Proof.
  intros run.
  pose (d := <["expires_at" := JStr (isoformat (AwareDT (timedelta 5)))]> identity).
  assert (Hrun : validate_bearer_token "abc" env start = (Return d, run.2))
    by (vm_compute; reflexivity).
  exists d. split; [by subst run; rewrite Hrun |].
  exact (validate_result_is_cached env start "abc" d run.2 Hrun).
Defined.

Lemma validate_touches_only_its_entry_run :
  let w1 := (validate_bearer_token "teapot" env stale).2 in
  _token_cache (manager w1) !! "abc" = Some stale_validation
  ∧ _location_token_cache (manager w1) = _location_token_cache stale_manager.
Proof.
  intros w1.
  destruct (validate_touches_only_its_entry env stale "teapot"
              (validate_bearer_token "teapot" env stale).1 w1)
    as (Hothers & _ & Hloc & _).
  - by destruct (validate_bearer_token "teapot" env stale).
  - split; [| exact Hloc]. by rewrite (Hothers "abc").
Defined.

Lemma get_location_token_touches_only_its_entry_run :
  let w1 := (get_location_token "abc" "loc_7" env stale).2 in
  _location_token_cache (manager w1) !! cache_key "abc" "loc_9"
  = Some (location_entry (JStr "old_scoped") (AwareDT 0))
  ∧ _token_cache (manager w1) = _token_cache stale_manager.
Proof.
  intros w1.
  destruct (get_location_token_touches_only_its_entry env stale "abc" "loc_7"
              (get_location_token "abc" "loc_7" env stale).1 w1)
    as (Hothers & _ & Htok & _).
  - by destruct (get_location_token "abc" "loc_7" env stale).
  - split; [| exact Htok]. by rewrite (Hothers (cache_key "abc" "loc_9")).
Defined.

Lemma get_location_token_never_raises_run :
  ∃ v w1, get_location_token "zzz" "loc_9" env start = (Return v, w1).
Proof.
  destruct (get_location_token_never_raises env start) as (Hinit & _ & Htotal).
  destruct (Htotal "zzz" "loc_9" (Hinit None)) as (v & w1 & Hrun & _).
  by exists v, w1.
Defined.

Lemma get_location_token_unparsable_stamp_run :
  ∃ msg, get_location_token "abc" "bad" env stale
         = (Raise (OtherError "ValueError" msg), stale).
Proof.
  apply (get_location_token_unparsable_stamp env stale "abc" "bad"
           {[ "token" := JStr "x"; "expires_at" := JStr "yesterday" ]} "yesterday");
    [reflexivity | reflexivity | discriminate | reflexivity].
Defined.

Lemma get_location_token_caches_bearer_fallback_run :
  ∃ w1, get_location_token "plain" "loc_9" odd_env start = (Return (JStr "plain"), w1)
        ∧ get_location_token "plain" "loc_9" odd_env w1 = (Return (JStr "plain"), tick w1).
Proof.
  destruct (get_location_token_caches_bearer_fallback odd_env start "plain" "loc_9" start
              (ok {[ "token_type" := JStr "bearer" ]}) {[ "token_type" := JStr "bearer" ]})
    as (w1 & Hrun & _ & Hlater); try reflexivity.
  exists w1. split; [exact Hrun |].
  assert (Hw1 : w1 = (get_location_token "plain" "loc_9" odd_env start).2)
    by (by rewrite Hrun).
  apply Hlater; [reflexivity |]. rewrite Hw1. vm_compute. reflexivity.
Defined.

Lemma get_location_token_refreshes_stale_entry_run :
  ∃ w1, get_location_token "abc" "loc_9" env stale = (Return (JStr "scoped_1"), w1)
        ∧ length (calls w1) = 1%nat.
Proof.
  destruct (get_location_token_refreshes_stale_entry env stale "abc" "loc_9"
              (JStr "old_scoped") 0 (ok {[ "access_token" := JStr "scoped_1" ]})
              {[ "access_token" := JStr "scoped_1" ]} (JStr "scoped_1"))
    as (w1 & Hrun & Hcalls & _); try reflexivity.
  exists w1. split; [exact Hrun |]. by rewrite Hcalls.
Defined.

Lemma authenticate_fresh_token_posts_once_run :
  let request := {| headers := ∅; state := ∅ |} in
  ∃ loc request' w1,
    MCPAuthDependency_call request (Some {| scheme := "Bearer"; credentials := "abc" |})
      env start
    = (Return ((loc, "abc"), request'), w1)
    ∧ calls w1 = [validate_request base_url "abc"].
Proof.
  intros request.
  destruct (authenticate_fresh_token_posts_once env start request
              {| scheme := "Bearer"; credentials := "abc" |})
    as (loc & request' & w1 & Hrun & Hcalls & _).
  - reflexivity.
  - intros n. exists (ok identity), identity. by split.
  - vm_compute. reflexivity.
  - by exists loc, request', w1.
Defined.

Lemma get_ghl_client_caches_run :
  ∃ client s',
    get_ghl_client "loc_9" "abc" env booted = (Return client, s')
    ∧ client = GoHighLevelClient {| token := "abc"; location_id := "loc_9" |}
    ∧ tools s' = tools booted.
Proof.
  destruct (get_ghl_client_caches env booted "loc_9" "abc")
    as (client & s' & Hrun & _ & _ & _ & Htools & _ & Hnew).
  exists client, s'. split; [exact Hrun |]. split; [| exact Htools].
  by apply Hnew.
Defined.

Lemma get_ghl_client_shares_by_prefix_run :
  ∃ s1,
    get_ghl_client "loc_9" "abcdefghij_one" env booted
    = (Return (GoHighLevelClient {| token := "abcdefghij_one"; location_id := "loc_9" |}),
       s1)
    ∧ get_ghl_client "loc_9" "abcdefghij_two" env s1
      = (Return (GoHighLevelClient {| token := "abcdefghij_one"; location_id := "loc_9" |}),
         s1).
Proof.
  apply (get_ghl_client_shares_by_prefix env booted "loc_9"
           "abcdefghij_one" "abcdefghij_two"); reflexivity.
Defined.

Lemma call_tool_uses_cached_client_run :
  call_tool "missing" (JObj ∅) "loc_9" "abc" env booted
  = (Raise (OtherError "ValueError" "Tool missing not found"), booted)
  ∧ (call_tool "whoami" (JObj ∅) "loc_9" "abcdefghij_two" env served).1
    = Return (Plain (JStr "abcdefghij_one")).
Proof.
  split.
  - destruct (call_tool_uses_cached_client env booted "missing" (JObj ∅) "loc_9" "abc")
      as [Hmissing _].
    by apply Hmissing.
  - destruct (call_tool_uses_cached_client env served "whoami" (JObj ∅) "loc_9"
                "abcdefghij_two") as [_ Hcached].
    rewrite (Hcached whoami {| token := "abcdefghij_one"; location_id := "loc_9" |}
               eq_refl eq_refl).
    vm_compute. reflexivity.
Defined.

Lemma register_stores_tool_run :
  ∃ s', register "whoami" broken_impl "Replaced" JNull env booted = (Return tt, s')
        ∧ (tools s').*1 = ["whoami"; "broken"]
        ∧ NoDup (tools s').*1.
Proof.
  destruct (register_stores_tool env booted "whoami" broken_impl "Replaced" JNull)
    as (s' & Hrun & _ & _ & Hkeys & Hnodup & _).
  exists s'. split; [exact Hrun |]. split; [by rewrite Hkeys |].
  apply Hnodup. simpl. apply NoDup_cons. split.
  - by intros ?%list_elem_of_singleton.
  - apply NoDup_singleton.
Defined.

Lemma process_message_unknown_method_run :
  process_message {[ "method" := JStr "ping"; "id" := JNum 7 ]} "loc_9" "abc" env booted
  = (Return {[ "jsonrpc" := JStr "2.0"; "id" := JNum 7;
               "error" := JObj {[ "code" := JNum (-32603);
                                  "message" := JStr "Unknown method: ping" ]} ]}, booted).
Proof.
  destruct (process_message_unknown_method env booted
              {[ "method" := JStr "ping"; "id" := JNum 7 ]} "loc_9" "abc") as [Hstr _].
  by rewrite (Hstr "ping").
Defined.

Lemma process_message_tools_list_run :
  ∃ listing,
    process_message {[ "method" := JStr "tools/list"; "id" := JNum 1 ]} "loc_9" "abc"
      env booted
    = (Return {[ "jsonrpc" := JStr "2.0"; "id" := JNum 1;
                 "result" := JObj {[ "tools" := JArr listing ]} ]}, booted)
    ∧ length listing = 2%nat.
Proof.
  destruct (process_message_tools_list env booted
              {[ "method" := JStr "tools/list"; "id" := JNum 1 ]} "loc_9" "abc")
    as (listing & Hrun & Hlen & _); [reflexivity |].
  exists listing. split; [exact Hrun | exact Hlen].
Defined.

Lemma process_message_unknown_tool_run :
  let message := {[ "method" := JStr "tools/call"; "id" := JNum 2;
                    "params" := JObj {[ "name" := JStr "missing" ]} ]} in
  process_message message "loc_9" "abc" env booted
  = (Return {[ "jsonrpc" := JStr "2.0"; "id" := JNum 2;
               "error" := JObj {[ "code" := JNum (-32603);
                                  "message" := JStr "Tool missing not found" ]} ]}, booted).
Proof.
  intros message.
  by rewrite (process_message_unknown_tool env booted message "loc_9" "abc"
                {[ "name" := JStr "missing" ]} "missing").
Defined.

Lemma process_message_tool_outcome_run :
  let call name := {[ "method" := JStr "tools/call"; "id" := JNum 3;
                      "params" := JObj {[ "name" := JStr name ]} ]} in
  let answer (result : gmap string json) : gmap string json :=
    {[ "jsonrpc" := JStr "2.0"; "id" := JNum 3; "result" := JObj result ]} in
  let tool_error msg : gmap string json :=
    {[ "error" := JObj {[ "code" := JStr "TOOL_ERROR"; "message" := JStr msg ]} ]} in
  (process_message (call "whoami") "loc_9" "abc" env scheduled).1
  = Return (answer {[ "content" :=
                        JArr [JObj {[ "type" := JStr "text";
                                      "text" := JStr "'scoped_1'" ]}] ]})
  ∧ (process_message (call "slots") "loc_9" "abc" env scheduled).1
    = Return (answer (tool_error "Object of type datetime is not JSON serializable"))
  ∧ (process_message (call "broken") "loc_9" "abc" env scheduled).1
    = Return (answer (tool_error "upstream failed")).
Proof.
  intros call answer tool_error.
  pose (client := GoHighLevelClient {| token := "abc"; location_id := "loc_9" |}).
  pose (s1 := (get_ghl_client "loc_9" "abc" env scheduled).2).
  split; [| split].
  - rewrite (process_message_tool_outcome env scheduled (call "whoami") "loc_9" "abc"
               {[ "name" := JStr "whoami" ]} "whoami" whoami client s1
               eq_refl eq_refl eq_refl eq_refl eq_refl).
    vm_compute. reflexivity.
  - rewrite (process_message_tool_outcome env scheduled (call "slots") "loc_9" "abc"
               {[ "name" := JStr "slots" ]} "slots" slots client s1
               eq_refl eq_refl eq_refl eq_refl eq_refl).
    vm_compute. reflexivity.
  - rewrite (process_message_tool_outcome env scheduled (call "broken") "loc_9" "abc"
               {[ "name" := JStr "broken" ]} "broken" broken client s1
               eq_refl eq_refl eq_refl eq_refl eq_refl).
    vm_compute. reflexivity.
Defined.

Lemma authenticate_without_credentials_run :
  MCPAuthDependency_call {| headers := ∅; state := ∅ |} None env start
  = (Raise (HTTPException 403 "Not authenticated"), start).
Proof.
  destruct (authenticate_without_credentials env start {| headers := ∅; state := ∅ |} None)
    as (e & Hrun & _ & Hraise).
  - by intros c.
  - by rewrite Hrun, (Hraise (HTTPException 403 "Not authenticated")).
Defined.

Lemma token_cache_wf_invariant_run :
  token_cache_wf (manager (validate_bearer_token "abc" env start).2).
Proof.
  destruct (token_cache_wf_invariant env start) as (Hinit & Hkeep).
  destruct (Hkeep (Hinit None)) as (Hvalidate & _).
  apply (Hvalidate "abc" (validate_bearer_token "abc" env start).1).
  by destruct (validate_bearer_token "abc" env start).
Defined.

End CoverageRuns.
